(** * sizefoto: the size-targeting search of [src/App.tsx]

    A shallow embedding of [calculateImageSize] and [processImage] from
    [src/App.tsx], and the properties of the size-targeting search checked
    against it.

    Modelling choices.
    - JavaScript numbers that hold integers (image sizes in KB, pixel
      dimensions, the attempt counter, the two bounds typed by the user) are
      [Z].  The arithmetic of [calculateImageSize] is written over [Q]: its
      operands are an integer times three, divided by powers of two, so the
      IEEE double the browser computes is that rational exactly.  Where such
      a number is printed into a message, [show] prints it as
      [Number::toString] prints the double.
    - JavaScript numbers that hold fractions (the encoding quality and the two
      scale factors) are IEEE-754 binary64 values, computed with the
      executable specification [SpecFloat] of the Rocq library (round to
      nearest, ties to even), because the source's loops depend on how
      [1.0 + 0.2 + ...] and [0.9 - 0.1 - ...] round.
    - The browser (image decoding, canvas, JPEG encoder) is a record of
      functions, [Browser]; every theorem quantifies over it.
    - [processImage] runs in a small monad threading the React state and the
      list of browser calls, with outcomes for normal completion, [return],
      a thrown exception and exhausted fuel (loops are fuelled; the theorems
      show that twenty units are always enough). *)

From Stdlib Require Import ZArith List String Ascii Bool Lia Lqa QArith Qround.
From Stdlib Require Import DecimalString Strings.Byte.
From Stdlib Require Import Floats.SpecFloat.
Import ListNotations.

Local Open Scope string_scope.
Local Open Scope Z_scope.

(** ** IEEE-754 binary64 numbers *)

Module F64.

Definition prec : Z := 53.
Definition emax : Z := 1024.

Definition float := spec_float.

(** An integer as a double (exact below 2^53). *)
Definition of_Z (z : Z) : float := binary_normalize prec emax z 0 false.

Definition add : float -> float -> float := SFadd prec emax.
Definition sub : float -> float -> float := SFsub prec emax.
Definition mul : float -> float -> float := SFmul prec emax.
Definition div : float -> float -> float := SFdiv prec emax.
Definition ltb : float -> float -> bool := SFltb.
Definition leb : float -> float -> bool := SFleb.

(** The double denoted by the decimal literal [n/d]: the correctly rounded
    quotient of two exactly representable integers. *)
Definition lit (n d : Z) : float := div (of_Z n) (of_Z d).

(** The literals of [processImage]. *)
Definition c_0_001 : float := lit 1 1000.
Definition c_0_01 : float := lit 1 100.
Definition c_0_1 : float := lit 1 10.
Definition c_0_2 : float := lit 2 10.
Definition c_0_3 : float := lit 3 10.
Definition c_0_7 : float := lit 7 10.
Definition c_0_9 : float := lit 9 10.
Definition c_1_0 : float := of_Z 1.
Definition c_2 : float := of_Z 2.
Definition c_3_0 : float := of_Z 3.
Definition c_100 : float := of_Z 100.

(** The exact rational value of a finite double (0 for the others, which
    the search never produces). *)
Definition to_Q (x : float) : Q :=
  match x with
  | S754_finite s m e =>
      let v := if s then Zneg m else Zpos m in
      if 0 <=? e then inject_Z (Z.shiftl v e)
      else Qmake v (Pos.shiftl 1 (Z.to_N (- e)))
  | _ => 0%Q
  end.

(** [Math.floor] of a finite double, as an integer. *)
Definition floor (x : float) : Z :=
  match x with
  | S754_finite s m e =>
      let v := if s then Zneg m else Zpos m in
      if 0 <=? e then v * 2 ^ e else v / 2 ^ (- e)
  | _ => 0
  end.

End F64.

Abbreviation float := F64.float.

(** ** Strings *)

(** [s.split(sep)] for a one-character separator. *)
Fixpoint split (sep : ascii) (s : string) : list string :=
  match s with
  | EmptyString => [EmptyString]
  | String c rest =>
      if Ascii.eqb c sep then EmptyString :: split sep rest
      else match split sep rest with
           | hd :: tl => String c hd :: tl
           | [] => [String c EmptyString]
           end
  end.

(** ** Numbers as text

    A number in a template literal is printed by [Number::toString]
    (ECMA-262, 6.1.6.1.20): the decimal with the fewest significant digits
    that reads back as the same double, and among those the nearest one;
    written out in full when it has at most 21 integer digits, and in
    exponent form ([1e+21]) beyond. *)

Module Number.

(** The integer value of the double nearest to [z], which is [z] itself for
    every integer a number can hold; [None] beyond the largest double. *)
Definition nearest (z : Z) : option Z :=
  match F64.of_Z z with
  | S754_finite _ _ _ as x => Some (F64.floor x)
  | S754_zero _ => Some 0
  | _ => None
  end.

Definition digits (z : Z) : string := NilZero.string_of_int (Z.to_int z).

(** The number of decimal digits of [z >= 0]. *)
Definition size (z : Z) : Z := Z.of_nat (String.length (digits z)).

(** The decimal [v] is read back as the double [x]. *)
Definition reads_as (x v : Z) : bool :=
  match nearest v with Some y => y =? x | None => false end.

(** The integer with the fewest significant digits that reads back as [x],
    tried with [k], [k + 1], ... significant digits; of two neighbours of
    [x] that both do, the nearer, and the even one on a tie.  Seventeen
    digits always suffice. *)
Fixpoint shortest (fuel : nat) (k : Z) (x : Z) : Z :=
  match fuel with
  | O => x
  | S fuel =>
      if size x <=? k then x
      else
        let p := 10 ^ (size x - k) in
        let lo := x / p * p in
        let hi := lo + p in
        match reads_as x lo, reads_as x hi with
        | true, true =>
            if x - lo <? hi - x then lo
            else if hi - x <? x - lo then hi
            else if Z.even (x / p) then lo else hi
        | true, false => lo
        | false, true => hi
        | false, false => shortest fuel (k + 1) x
        end
  end.

(** The digits without the zeros at their end. *)
Fixpoint strip (s : string) : string :=
  match s with
  | EmptyString => EmptyString
  | String c rest =>
      match strip rest with
      | EmptyString =>
          if Ascii.eqb c "0" then EmptyString else String c EmptyString
      | rest' => String c rest'
      end
  end.

Definition toString (z : Z) : string :=
  match nearest (Z.abs z) with
  | None => if z <? 0 then "-Infinity" else "Infinity"
  | Some x =>
      let v := shortest 17 1 x in
      let n := size v in
      let body :=
        if n <=? 21 then digits v
        else
          match strip (digits v) with
          | String c EmptyString => String c ("e+" ++ digits (n - 1))
          | String c rest => String c ("." ++ rest ++ "e+" ++ digits (n - 1))
          | EmptyString => digits v
          end in
      if z <? 0 then "-" ++ body else body
  end.

End Number.

(** A number holding an integer, in a template literal. *)
Definition show (z : Z) : string := Number.toString z.

(** ** The size estimator *)

(** [Math.round]: the nearest integer, ties towards plus infinity. *)
Definition Math_round (x : Q) : Z := Qfloor (x + (1 # 2))%Q.

(** [calculateImageSize], lines 50-55.  [None] stands for the [TypeError]
    raised by [base64.length] when the data URL has no comma. *)
Definition calculateImageSize (dataUrl : string) : option Z :=
  match nth_error (split "," dataUrl) 1 with
  | Some base64 =>
      Some (Math_round
              (inject_Z (Z.of_nat (String.length base64)) * 3 / 4 / 1024)%Q)
  | None => None
  end.

(** ** Data URLs of byte buffers

    What the platform does when it serialises an encoded buffer as a data URL
    (RFC 2397 with the base64 alphabet of RFC 4648): the text that
    [calculateImageSize] receives for a given buffer. *)

Module Base64.

Definition alphabet : string :=
  "ABCDEFGHIJKLMNOPQRSTUVWXYZabcdefghijklmnopqrstuvwxyz0123456789+/".

Definition digit (n : N) : ascii :=
  match String.get (N.to_nat n) alphabet with
  | Some c => c
  | None => "A"%char
  end.

Definition pad : ascii := "="%char.

Fixpoint encode (bs : list byte) : string :=
  match bs with
  | [] => EmptyString
  | [a] =>
      let a := Byte.to_N a in
      String (digit (N.shiftr a 2))
        (String (digit (N.shiftl (N.land a 3) 4))
           (String pad (String pad EmptyString)))
  | [a; b] =>
      let a := Byte.to_N a in
      let b := Byte.to_N b in
      String (digit (N.shiftr a 2))
        (String (digit (N.lor (N.shiftl (N.land a 3) 4) (N.shiftr b 4)))
           (String (digit (N.shiftl (N.land b 15) 2))
              (String pad EmptyString)))
  | a :: b :: c :: rest =>
      let a := Byte.to_N a in
      let b := Byte.to_N b in
      let c := Byte.to_N c in
      String (digit (N.shiftr a 2))
        (String (digit (N.lor (N.shiftl (N.land a 3) 4) (N.shiftr b 4)))
           (String (digit (N.lor (N.shiftl (N.land b 15) 2) (N.shiftr c 6)))
              (String (digit (N.land c 63)) (encode rest))))
  end.

Definition dataURL (bs : list byte) : string :=
  "data:image/jpeg;base64," ++ encode bs.

End Base64.

(** The size of a buffer as the specification words it:
    [round(len(bytes) / 1024)]. *)
Definition estimateKB (bs : list byte) : Z :=
  Math_round (inject_Z (Z.of_nat (List.length bs)) / 1024)%Q.

(** ** The component state and the browser *)

Record File := { file_name : string; file_type : string }.

(** The [useState] cells of [App] that [processImage] reads or writes. *)
Record AppState := {
  image : option File;
  preview : option string;
  minSize : Z;
  maxSize : Z;
  processedImage : option string;
  processedSize : option Z;
  loading : bool;
  error : option string
}.

Definition setProcessedImage (d : option string) (st : AppState) : AppState :=
  {| image := image st; preview := preview st;
     minSize := minSize st; maxSize := maxSize st;
     processedImage := d; processedSize := processedSize st;
     loading := loading st; error := error st |}.

Definition setProcessedSize (n : option Z) (st : AppState) : AppState :=
  {| image := image st; preview := preview st;
     minSize := minSize st; maxSize := maxSize st;
     processedImage := processedImage st; processedSize := n;
     loading := loading st; error := error st |}.

Definition setLoading (b : bool) (st : AppState) : AppState :=
  {| image := image st; preview := preview st;
     minSize := minSize st; maxSize := maxSize st;
     processedImage := processedImage st; processedSize := processedSize st;
     loading := b; error := error st |}.

Definition setError (e : option string) (st : AppState) : AppState :=
  {| image := image st; preview := preview st;
     minSize := minSize st; maxSize := maxSize st;
     processedImage := processedImage st; processedSize := processedSize st;
     loading := loading st; error := e |}.

(** The canvas element: its two dimensions and the rectangle the image was
    last drawn into ([None] on a blank bitmap). *)
Record Canvas := {
  canvas_width : Z;
  canvas_height : Z;
  drawn : option (Z * Z)
}.

(** Assigning [canvas.width] or [canvas.height] resets the bitmap. *)
Definition set_canvas_width (w : Z) (c : Canvas) : Canvas :=
  {| canvas_width := w; canvas_height := canvas_height c; drawn := None |}.

Definition set_canvas_height (h : Z) (c : Canvas) : Canvas :=
  {| canvas_width := canvas_width c; canvas_height := h; drawn := None |}.

(** [ctx.clearRect(0, 0, canvas.width, canvas.height)]. *)
Definition clearRect (c : Canvas) : Canvas :=
  {| canvas_width := canvas_width c; canvas_height := canvas_height c;
     drawn := None |}.

(** [ctx.drawImage(img, 0, 0, w, h)]. *)
Definition drawImage (w h : Z) (c : Canvas) : Canvas :=
  {| canvas_width := canvas_width c; canvas_height := canvas_height c;
     drawn := Some (w, h) |}.

(** A new canvas element is 300 by 150 and blank. *)
Definition createCanvas : Canvas :=
  {| canvas_width := 300; canvas_height := 150; drawn := None |}.

(** What [processImage] asks of the browser. *)
Record Browser := {
  (** [img.src = preview] followed by [onload]: the decoded [img.width] and
      [img.height], or [None] when [onload] never fires. *)
  load_image : string -> option (Z * Z);
  (** whether [canvas.getContext("2d")] returns a context *)
  has_context : bool;
  (** [canvas.toDataURL("image/jpeg", quality)] *)
  toDataURL : Canvas -> float -> string;
  (** the [message] of the [TypeError] raised on [undefined.length] *)
  type_error_message : string
}.

(** The browser calls a run performs, oldest first. *)
Inductive Event :=
| Decode (src : string)
| Encode (c : Canvas) (quality : float).

Definition is_encode (e : Event) : bool :=
  match e with Encode _ _ => true | Decode _ => false end.

(** ** The monad of [processImage] *)

Record World := { app : AppState; events : list Event }.

Inductive Outcome (A : Type) : Type :=
| Normal (a : A)
| Returned
| Thrown (msg : string)
| Pending
| Starved.

Arguments Normal {A} a.
Arguments Returned {A}.
Arguments Thrown {A} msg.
Arguments Pending {A}.
Arguments Starved {A}.

Definition M (A : Type) : Type := World -> Outcome A * World.

Definition ret {A} (a : A) : M A := fun w => (Normal a, w).

Definition bind {A B} (m : M A) (f : A -> M B) : M B :=
  fun w =>
    match m w with
    | (Normal a, w') => f a w'
    | (Returned, w') => (Returned, w')
    | (Thrown msg, w') => (Thrown msg, w')
    | (Pending, w') => (Pending, w')
    | (Starved, w') => (Starved, w')
    end.

Notation "x <- m ;; k" := (bind m (fun x => k))
  (at level 61, m at next level, right associativity).
Notation "m ;;; k" := (bind m (fun _ => k))
  (at level 61, right associativity).

Definition return_ {A} : M A := fun w => (Returned, w).
Definition throw {A} (msg : string) : M A := fun w => (Thrown msg, w).
Definition starve {A} : M A := fun w => (Starved, w).

(** [await] of a promise that settles with [a], or never settles. *)
Definition await {A} (p : option A) : M A :=
  fun w => match p with Some a => (Normal a, w) | None => (Pending, w) end.

(** [try { body } catch (err) { handler(err.message) } finally { fin }],
    for a [fin] that completes normally. *)
Definition try_catch_finally (body : M unit) (handler : string -> M unit)
    (fin : M unit) : M unit :=
  fun w =>
    match body w with
    | (Normal _, w') => fin w'
    | (Returned, w') => (fin ;;; return_) w'
    | (Thrown msg, w') => (handler msg ;;; fin) w'
    | (Pending, w') => (Pending, w')
    | (Starved, w') => (Starved, w')
    end.

Definition emit (e : Event) : M unit :=
  fun w => (Normal tt, {| app := app w; events := events w ++ [e] |}).

Definition setState (f : AppState -> AppState) : M unit :=
  fun w => (Normal tt, {| app := f (app w); events := events w |}).

(** [canvas.toDataURL("image/jpeg", q)] *)
Definition encode (b : Browser) (c : Canvas) (q : float) : M string :=
  emit (Encode c q) ;;; ret (toDataURL b c q).

(** [calculateImageSize(dataUrl)] inside the [try] block *)
Definition measure (b : Browser) (dataUrl : string) : M Z :=
  match calculateImageSize dataUrl with
  | Some kb => ret kb
  | None => throw (type_error_message b)
  end.

(** ** [processImage] *)

(** The [let] variables of [processImage] and its canvas. *)
Record Vars := {
  width : Z;
  height : Z;
  quality : float;
  currentSize : Z;
  dataUrl : string;
  attempts : Z;
  canvas : Canvas
}.

Definition set_dims (w h : Z) (v : Vars) : Vars :=
  {| width := w; height := h; quality := quality v;
     currentSize := currentSize v; dataUrl := dataUrl v;
     attempts := attempts v; canvas := canvas v |}.

Definition set_quality (q : float) (v : Vars) : Vars :=
  {| width := width v; height := height v; quality := q;
     currentSize := currentSize v; dataUrl := dataUrl v;
     attempts := attempts v; canvas := canvas v |}.

Definition set_result (d : string) (kb : Z) (v : Vars) : Vars :=
  {| width := width v; height := height v; quality := quality v;
     currentSize := kb; dataUrl := d;
     attempts := attempts v; canvas := canvas v |}.

Definition set_attempts (n : Z) (v : Vars) : Vars :=
  {| width := width v; height := height v; quality := quality v;
     currentSize := currentSize v; dataUrl := dataUrl v;
     attempts := n; canvas := canvas v |}.

Definition set_canvas (c : Canvas) (v : Vars) : Vars :=
  {| width := width v; height := height v; quality := quality v;
     currentSize := currentSize v; dataUrl := dataUrl v;
     attempts := attempts v; canvas := c |}.

(** The quality bounds of the binary search, [minQuality] and [maxQuality]. *)
Record Bracket := { minQuality : float; maxQuality : float }.

Definition maxAttempts : Z := 20.

(** [Math.floor(n * factor)] for an integer-valued [n]. *)
Definition scale (n : Z) (factor : float) : Z :=
  F64.floor (F64.mul (F64.of_Z n) factor).

Section Search.

Variable b : Browser.
(** [minSize] and [maxSize] as captured by the callback. *)
Variables lo hi : Z.
(** [img.width] and [img.height]. *)
Variables img_width img_height : Z.

(** Lines 108-120: the enlargement loop. *)
Fixpoint enlarge (fuel : nat) (scaleFactor : float) (v : Vars) : M Vars :=
  if (currentSize v <? lo) && F64.ltb scaleFactor F64.c_3_0 then
    match fuel with
    | O => starve
    | S fuel' =>
        let scaleFactor := F64.add scaleFactor F64.c_0_2 in
        let c := set_canvas_width (scale (width v) scaleFactor) (canvas v) in
        let c := set_canvas_height (scale (height v) scaleFactor) c in
        let c := drawImage (canvas_width c) (canvas_height c) c in
        d <- encode b c F64.c_1_0 ;;
        kb <- measure b d ;;
        let v := set_result d kb (set_canvas c v) in
        if kb >=? lo then ret v else enlarge fuel' scaleFactor v
    end
  else ret v.

(** Lines 104-132: the branch taken when the original is below [minSize]. *)
Definition stage1 (fuel : nat) (originalSize : Z) (v : Vars) : M Vars :=
  if originalSize <? lo then
    v <- enlarge fuel F64.c_1_0 v ;;
    if currentSize v <? lo then
      setState (setProcessedImage (Some (dataUrl v))) ;;;
      setState (setProcessedSize (Some (currentSize v))) ;;;
      setState (setError (Some
        ("Could not reach minimum size of " ++ show lo ++
         "KB. Best result: " ++ show (currentSize v) ++ "KB"))) ;;;
      setState (setLoading false) ;;;
      return_
    else ret v
  else ret v.

(** Lines 163-184: the update of the bounds after a measurement outside
    the range. *)
Definition adjust (s : Bracket * Vars) : Bracket * Vars :=
  let (br, v) := s in
  let s :=
    if currentSize v >? hi then
      ({| minQuality := minQuality br; maxQuality := quality v |},
       set_quality
         (F64.div (F64.add (minQuality br) (quality v)) F64.c_2) v)
    else if currentSize v <? lo then
      ({| minQuality := quality v; maxQuality := maxQuality br |},
       set_quality
         (F64.div (F64.add (quality v) (maxQuality br)) F64.c_2) v)
    else (br, v) in
  let (br, v) := s in
  if (attempts v >? 10) && (currentSize v >? hi) then
    let w := scale (width v) F64.c_0_9 in
    let h := scale (height v) F64.c_0_9 in
    let v := set_dims w h v in
    let v :=
      set_canvas (set_canvas_height h (set_canvas_width w (canvas v))) v in
    ({| minQuality := F64.c_0_01; maxQuality := F64.c_0_7 |},
     set_quality F64.c_0_3 v)
  else (br, v).

(** Lines 146-161: one pass up to the range test. *)
Definition probe (v : Vars) : M Vars :=
  let v := set_attempts (attempts v + 1) v in
  let c := drawImage (width v) (height v) (clearRect (canvas v)) in
  d <- encode b c (quality v) ;;
  kb <- measure b d ;;
  ret (set_result d kb (set_canvas c v)).

Definition in_range (kb : Z) : bool := (kb <=? hi) && (kb >=? lo).

(** Lines 145-185: the binary search over the quality. *)
Fixpoint bisect (fuel : nat) (s : Bracket * Vars) : M Vars :=
  if attempts (snd s) <? maxAttempts then
    match fuel with
    | O => starve
    | S fuel' =>
        v <- probe (snd s) ;;
        if in_range (currentSize v) then ret v
        else bisect fuel' (adjust (fst s, v))
    end
  else ret (snd s).

(** Lines 190-208: the forced reduction of the dimensions. *)
Fixpoint shrink (fuel : nat) (scaleFactor : float) (v : Vars) : M Vars :=
  if (currentSize v >? hi) && F64.ltb F64.c_0_1 scaleFactor then
    match fuel with
    | O => starve
    | S fuel' =>
        let scaleFactor := F64.sub scaleFactor F64.c_0_1 in
        let v :=
          set_dims (scale img_width scaleFactor)
                   (scale img_height scaleFactor) v in
        let c :=
          set_canvas_height (height v)
            (set_canvas_width (width v) (canvas v)) in
        let c := drawImage (width v) (height v) (clearRect c) in
        d <- encode b c F64.c_0_1 ;;
        kb <- measure b d ;;
        let v := set_result d kb (set_canvas c v) in
        if kb <=? hi then ret v else shrink fuel' scaleFactor v
    end
  else ret v.

(** The bounds and the quality the binary search starts from
    (lines 137-143). *)
Definition bisect_init (v : Vars) : Bracket * Vars :=
  let c :=
    set_canvas_height (height v) (set_canvas_width (width v) (canvas v)) in
  ({| minQuality := F64.c_0_001; maxQuality := F64.c_100 |},
   set_quality F64.c_0_7 (set_canvas c v)).

(** Lines 134-214. *)
Definition stage2 (fuel : nat) (originalDataUrl : string)
    (originalSize : Z) (v : Vars) : M Vars :=
  if originalSize >? hi then
    v <- bisect fuel (bisect_init v) ;;
    if currentSize v >? hi then shrink fuel F64.c_0_9 v else ret v
  else ret (set_result originalDataUrl originalSize v).

(** Lines 216-229. *)
Definition report (v : Vars) : M unit :=
  setState (setProcessedImage (Some (dataUrl v))) ;;;
  setState (setProcessedSize (Some (currentSize v))) ;;;
  if currentSize v <? lo then
    setState (setError (Some
      ("Could not reach minimum size of " ++ show lo ++
       "KB. Best result: " ++ show (currentSize v) ++ "KB")))
  else if currentSize v >? hi then
    setState (setError (Some
      ("Could not get below maximum size of " ++ show hi ++
       "KB. Best result: " ++ show (currentSize v) ++ "KB")))
  else ret tt.

(** Lines 80-102: the variables and the measurement of the original. *)
Definition baseline : M (string * Z * Vars) :=
  let v :=
    {| width := img_width; height := img_height; quality := F64.c_0_9;
       currentSize := 0; dataUrl := ""; attempts := 0;
       canvas := createCanvas |} in
  if has_context b then
    let c :=
      set_canvas_height (height v) (set_canvas_width (width v) (canvas v)) in
    let c := drawImage (width v) (height v) c in
    originalDataUrl <- encode b c F64.c_1_0 ;;
    originalSize <- measure b originalDataUrl ;;
    ret (originalDataUrl, originalSize, set_canvas c v)
  else throw "Could not get canvas context".

(** Lines 80-229: the [try] block after the image has loaded. *)
Definition search (fuel : nat) : M unit :=
  r <- baseline ;;
  let '(originalDataUrl, originalSize, v) := r in
  v <- stage1 fuel originalSize v ;;
  v <- stage2 fuel originalDataUrl originalSize v ;;
  report v.

End Search.

Definition truthy (s : option string) : bool :=
  match s with
  | Some (String _ _) => true
  | _ => false
  end.

(** Lines 57-238.  [fuel] bounds the passes of each loop. *)
Definition processImage (fuel : nat) (b : Browser) : M unit :=
  fun w =>
    let st := app w in
    match image st, truthy (preview st), preview st with
    | Some _, true, Some src =>
        if minSize st >=? maxSize st then
          (setState (setError
             (Some "Minimum size must be less than maximum size")) ;;;
           return_) w
        else
          (setState (setLoading true) ;;;
           setState (setError None) ;;;
           try_catch_finally
             (emit (Decode src) ;;;
              dims <- await (load_image b src) ;;
              search b (minSize st) (maxSize st) (fst dims) (snd dims) fuel)
             (fun msg =>
                setState (setError (Some ("Error processing image: " ++ msg))))
             (setState (setLoading false))) w
    | _, _, _ =>
        (setState (setError (Some "Please upload an image first")) ;;;
         return_) w
    end.

(** A run from a component state: the outcome, the state it leaves and the
    browser calls it made. *)
Definition run (fuel : nat) (b : Browser) (st : AppState) :
    Outcome unit * World :=
  processImage fuel b {| app := st; events := [] |}.

(** ** The other handlers of [App] *)

Definition setImage (f : option File) (st : AppState) : AppState :=
  {| image := f; preview := preview st;
     minSize := minSize st; maxSize := maxSize st;
     processedImage := processedImage st; processedSize := processedSize st;
     loading := loading st; error := error st |}.

Definition setPreview (p : option string) (st : AppState) : AppState :=
  {| image := image st; preview := p;
     minSize := minSize st; maxSize := maxSize st;
     processedImage := processedImage st; processedSize := processedSize st;
     loading := loading st; error := error st |}.

Definition setMinSize (n : Z) (st : AppState) : AppState :=
  {| image := image st; preview := preview st;
     minSize := n; maxSize := maxSize st;
     processedImage := processedImage st; processedSize := processedSize st;
     loading := loading st; error := error st |}.

Definition setMaxSize (n : Z) (st : AppState) : AppState :=
  {| image := image st; preview := preview st;
     minSize := minSize st; maxSize := n;
     processedImage := processedImage st; processedSize := processedSize st;
     loading := loading st; error := error st |}.

(** [file.type.startsWith("image/")] *)
Definition is_image (f : File) : bool := String.prefix "image/" (file_type f).

(** [handleImageUpload], lines 24-47, up to the call of
    [reader.readAsDataURL]: the new state and the file handed to the reader,
    if any.  [files] is [e.target.files], empty when it is null. *)
Definition handleImageUpload (files : list File) (st : AppState) :
    AppState * option File :=
  let st := setError None st in
  match files with
  | file :: _ =>
      if negb (is_image file) then
        (setError (Some "Please upload an image file") st, None)
      else (setImage (Some file) st, Some file)
  | [] => (st, None)
  end.

(** [reader.onload], lines 39-45, with [event.target.result]. *)
Definition reader_onload (result : string) (st : AppState) : AppState :=
  setProcessedSize None (setProcessedImage None (setPreview (Some result) st)).

(** [resetForm], lines 240-249, on the state cells (the file input element
    it also empties is not part of them). *)
Definition resetForm (st : AppState) : AppState :=
  setError None
    (setProcessedSize None
       (setProcessedImage None (setPreview None (setImage None st)))).

(** [image?.name || "image.jpg"] *)
Definition download_name (f : option File) : string :=
  match f with
  | Some {| file_name := String c rest |} => String c rest
  | _ => "image.jpg"
  end.

(** [downloadImage], lines 251-260: the [href] and the [download] attribute
    of the link that is clicked, if one is. *)
Definition downloadImage (st : AppState) : option (string * string) :=
  match processedImage st with
  | Some (String c rest) =>
      Some (String c rest, "resized-" ++ download_name (image st))
  | _ => None
  end.

(** The value the two size inputs store, lines 320 and 341:
    [Math.max('', parseInt(e.target.value) || '')], for the finite results
    of [parseInt] ([None] is NaN). *)
Definition typed_bound (parsed : option Z) : Z :=
  let n := match parsed with
           | Some z => if z =? 0 then 0 else z
           | None => 0
           end in
  Z.max 0 n.

(** [disabled={!image || loading}] of the Process button, line 354. *)
Definition process_disabled (st : AppState) : bool :=
  match image st with
  | Some _ => loading st
  | None => true
  end.

(** [processedImage && processedSize], line 386: whether the success
    message and the Download button inside it are rendered. *)
Definition success_shown (st : AppState) : bool :=
  truthy (processedImage st) &&
  match processedSize st with
  | Some kb => negb (kb =? 0)
  | None => false
  end.

(** What the user can do besides pressing Process. *)
Inductive Action :=
| ChooseFiles (files : list File)
| PreviewRead (result : string)
| ClickReset
| TypeMinimum (parsed : option Z)
| TypeMaximum (parsed : option Z).

Definition act (st : AppState) (a : Action) : AppState :=
  match a with
  | ChooseFiles files => fst (handleImageUpload files st)
  | PreviewRead result => reader_onload result st
  | ClickReset => resetForm st
  | TypeMinimum parsed => setMinSize (typed_bound parsed) st
  | TypeMaximum parsed => setMaxSize (typed_bound parsed) st
  end.

(** * The vocabulary of the properties *)

(** ** Text *)

Fixpoint occurs (c : ascii) (s : string) : bool :=
  match s with
  | EmptyString => false
  | String c' rest => Ascii.eqb c' c || occurs c rest
  end.

(** ** The scale factors of the two dimension loops *)

Definition enlarge_scale (k : nat) : float :=
  Nat.iter k (fun x => F64.add x F64.c_0_2) F64.c_1_0.

Definition shrink_scale (k : nat) : float :=
  Nat.iter k (fun x => F64.sub x F64.c_0_1) F64.c_0_9.

(** ** What the loops and the stages leave behind *)

(** The reported pair is the estimator applied to the reported data URL. *)
Definition measured (v : Vars) : Prop :=
  calculateImageSize (dataUrl v) = Some (currentSize v).

(** The data URL held in [v] was returned by one of the calls [evs]. *)
Definition encoded_by (b : Browser) (evs : list Event) (v : Vars) : Prop :=
  exists c q, In (Encode c q) evs /\ dataUrl v = toDataURL b c q.

(** What a loop started in [v] and [w] with [fuel] leaves behind, if it
    needs at most [bound] passes; [entry] is its condition on entry. *)
Definition loop_post (b : Browser) (fuel bound : nat) (entry : bool) (v : Vars)
    (w : World) (r : Outcome Vars * World) : Prop :=
  exists evs,
    app (snd r) = app w /\
    events (snd r) = (events w ++ evs)%list /\
    (List.length evs <= bound)%nat /\
    forallb is_encode evs = true /\
    match fst r with
    | Normal v' =>
        (v' = v /\ evs = [] /\ entry = false) \/
        (measured v' /\ encoded_by b evs v')
    | Thrown _ => exists c q, calculateImageSize (toDataURL b c q) = None
    | Starved => (fuel < bound)%nat
    | Returned | Pending => False
    end.

Definition below_message (lo kb : Z) : string :=
  "Could not reach minimum size of " ++ show lo ++
  "KB. Best result: " ++ show kb ++ "KB".

Definition above_message (hi kb : Z) : string :=
  "Could not get below maximum size of " ++ show hi ++
  "KB. Best result: " ++ show kb ++ "KB".

Definition with_result (d : string) (kb : Z) (st : AppState) : AppState :=
  setProcessedSize (Some kb) (setProcessedImage (Some d) st).

(** The state left by lines 216-229. *)
Definition reported (lo hi : Z) (d : string) (kb : Z) (st : AppState) :
    AppState :=
  if kb <? lo then setError (Some (below_message lo kb)) (with_result d kb st)
  else if kb >? hi then
    setError (Some (above_message hi kb)) (with_result d kb st)
  else with_result d kb st.

(** The state left by lines 123-131. *)
Definition gave_up (lo : Z) (d : string) (kb : Z) (st : AppState) : AppState :=
  setLoading false
    (setError (Some (below_message lo kb)) (with_result d kb st)).

(** The canvas and the variables when the original is measured. *)
Definition canvas0 (iw ih : Z) : Canvas :=
  drawImage iw ih (set_canvas_height ih (set_canvas_width iw createCanvas)).

Definition vars0 (iw ih : Z) : Vars :=
  {| width := iw; height := ih; quality := F64.c_0_9;
     currentSize := 0; dataUrl := ""; attempts := 0;
     canvas := canvas0 iw ih |}.

(** Stage 1 (lines 104-132) started in [v] with a blank result. *)
Definition stage1_post (b : Browser) (lo : Z) (fuel : nat) (kb0 : Z)
    (v : Vars) (w : World) (r : Outcome Vars * World) : Prop :=
  exists evs,
    events (snd r) = (events w ++ evs)%list /\
    (List.length evs <= 10)%nat /\
    forallb is_encode evs = true /\
    match fst r with
    | Normal v' =>
        app (snd r) = app w /\
        (((kb0 <? lo) = false /\ v' = v /\ evs = []) \/ kb0 < lo)
    | Returned =>
        kb0 < lo /\
        exists v', measured v' /\ encoded_by b evs v' /\
          currentSize v' < lo /\
          app (snd r) = gave_up lo (dataUrl v') (currentSize v') (app w)
    | Thrown _ =>
        app (snd r) = app w /\
        exists c q, calculateImageSize (toDataURL b c q) = None
    | Starved => app (snd r) = app w /\ (fuel < 10)%nat
    | Pending => False
    end.

(** Stage 2 and the branch for an original within the range
    (lines 134-214). *)
Definition stage2_post (b : Browser) (hi : Z) (fuel : nat) (d0 : string)
    (kb0 : Z) (w : World) (r : Outcome Vars * World) : Prop :=
  exists evs,
    app (snd r) = app w /\
    events (snd r) = (events w ++ evs)%list /\
    (List.length evs <= 29)%nat /\
    forallb is_encode evs = true /\
    match fst r with
    | Normal v' =>
        ((kb0 >? hi) = false /\ dataUrl v' = d0 /\ currentSize v' = kb0 /\
         evs = []) \/
        ((kb0 >? hi) = true /\ measured v' /\ encoded_by b evs v')
    | Thrown _ => exists c q, calculateImageSize (toDataURL b c q) = None
    | Starved => (fuel < 20)%nat
    | Returned | Pending => False
    end.

(** The whole [try] block after the image has loaded. *)
Definition search_post (b : Browser) (lo hi iw ih : Z) (fuel : nat)
    (w : World) (r : Outcome unit * World) : Prop :=
  let d0 := toDataURL b (canvas0 iw ih) F64.c_1_0 in
  exists evs,
    events (snd r) =
      (events w ++ Encode (canvas0 iw ih) F64.c_1_0 :: evs)%list /\
    (List.length evs <= 39)%nat /\
    forallb is_encode evs = true /\
    match fst r with
    | Normal _ =>
        exists d kb,
          calculateImageSize d = Some kb /\
          (exists c q,
             In (Encode c q) (Encode (canvas0 iw ih) F64.c_1_0 :: evs) /\
             d = toDataURL b c q) /\
          app (snd r) = reported lo hi d kb (app w) /\
          (forall kb0, calculateImageSize d0 = Some kb0 -> kb0 <= hi ->
                       d = d0 /\ kb = kb0)
    | Returned =>
        exists d kb,
          calculateImageSize d = Some kb /\
          (exists c q, In (Encode c q) evs /\ d = toDataURL b c q) /\
          kb < lo /\
          app (snd r) = gave_up lo d kb (app w)
    | Thrown _ =>
        app (snd r) = app w /\
        exists c q, calculateImageSize (toDataURL b c q) = None
    | Starved => app (snd r) = app w /\ (fuel < 20)%nat
    | Pending => False
    end.

Definition finished (st : AppState) (evs : list Event) : World :=
  {| app := setLoading false st; events := evs |}.

(** Every data URL the browser hands back has a comma, as a data URL does. *)
Definition well_formed (b : Browser) : Prop :=
  forall c q, calculateImageSize (toDataURL b c q) <> None.

(** What a run that came to its end left in the state: the message that
    goes with a reported size. *)
Definition status_message (lo hi kb : Z) : option string :=
  if kb <? lo then Some (below_message lo kb)
  else if kb >? hi then Some (above_message hi kb)
  else None.

(** ** Browsers to run the search on

    Encoders whose output length is chosen by a function of the canvas and
    the quality; the data URLs are the real serialisation of that many zero
    bytes. *)

Definition synthetic (iw ih : Z) (bytes : Canvas -> float -> nat) : Browser :=
  {| load_image := fun _ => Some (iw, ih);
     has_context := true;
     toDataURL := fun c q => Base64.dataURL (repeat x00 (bytes c q));
     type_error_message :=
       "Cannot read properties of undefined (reading 'length')" |}.

Definition photo : File :=
  {| file_name := "photo.jpg"; file_type := "image/jpeg" |}.

Definition photo_url : string := "data:image/jpeg;base64,/9j/4AAQSkZJRgABAQ==".

(** The state after an upload, with the two bounds typed in. *)
Definition uploaded (lo hi : Z) : AppState :=
  {| image := Some photo;
     preview := Some photo_url;
     minSize := lo; maxSize := hi;
     processedImage := None; processedSize := None;
     loading := false; error := None |}.

(** An encoder whose output grows with the area of the canvas:
    three bytes for every ten pixels. *)
Definition by_area (c : Canvas) (_ : float) : nat :=
  Z.to_nat (canvas_width c * canvas_height c * 3 / 10).

(** An encoder on the same 100 by 100 image whose output depends on the
    quality only: 30000 bytes at quality 1.0, 3000 bytes up to 0.7, and 12000
    bytes for a quality outside [0, 1], which a browser replaces by its
    default. *)
Definition by_quality (_ : Canvas) (q : float) : nat :=
  Z.to_nat (if F64.ltb F64.c_1_0 q then 12000
            else if F64.leb q F64.c_0_7 then 3000
            else 30000).

(** An encoder that never gets below 3000 bytes. *)
Definition incompressible (_ : Canvas) (_ : float) : nat := Z.to_nat 3000.

(** A browser in which the image never fires [onload]. *)
Definition unloadable : Browser :=
  {| load_image := fun _ => None;
     has_context := true;
     toDataURL := fun c q => Base64.dataURL (repeat x00 (by_area c q));
     type_error_message :=
       "Cannot read properties of undefined (reading 'length')" |}.

(** A browser that hands out no drawing context. *)
Definition contextless : Browser :=
  {| load_image := fun _ => Some (100, 100);
     has_context := false;
     toDataURL := fun c q => Base64.dataURL (repeat x00 (by_area c q));
     type_error_message :=
       "Cannot read properties of undefined (reading 'length')" |}.

(** A browser whose encoder returns text without a comma. *)
Definition commaless : Browser :=
  {| load_image := fun _ => Some (100, 100);
     has_context := true;
     toDataURL := fun _ _ => "about:blank";
     type_error_message :=
       "Cannot read properties of undefined (reading 'length')" |}.

(** The events are encodings at the quality [q]. *)
Definition at_quality (q : float) (evs : list Event) : Prop :=
  Forall (fun e => exists c, e = Encode c q) evs.

(** The cells [processImage] reads are the same in both states. *)
Definition same_inputs (st st' : AppState) : Prop :=
  image st' = image st /\ preview st' = preview st /\
  minSize st' = minSize st /\ maxSize st' = maxSize st.

(** The state in which the [try] block is entered. *)
Definition entered (st : AppState) : AppState :=
  setError None (setLoading true st).

(** The canvas of the enlargement pass number [k], for an image of
    [iw] by [ih] pixels. *)
Definition enlarged_canvas (iw ih : Z) (k : nat) : Canvas :=
  let w := scale iw (enlarge_scale k) in
  let h := scale ih (enlarge_scale k) in
  {| canvas_width := w; canvas_height := h; drawn := Some (w, h) |}.

(** ** The passes of the binary search *)

(** [maxQuality - minQuality], as an exact rational. *)
Definition bracket_width (br : Bracket) : Q :=
  F64.to_Q (maxQuality br) - F64.to_Q (minQuality br).

(** The condition of line 175 on the variables after a measurement. *)
Definition stuck (hi : Z) (v : Vars) : bool :=
  (attempts v >? 10) && (currentSize v >? hi).

Section Passes.

Variable b : Browser.
Variables lo hi : Z.

(** One pass of the loop of lines 145-185 that does not leave it: from the
    bounds and variables at the head of the loop to those at the next head. *)
Inductive pass : Bracket * Vars -> Bracket * Vars -> Prop :=
| pass_intro (s : Bracket * Vars) (v : Vars) (w w' : World) :
    attempts (snd s) < maxAttempts ->
    probe b (snd s) w = (Normal v, w') ->
    in_range lo hi (currentSize v) = false ->
    pass s (adjust lo hi (fst s, v)).

(** The loop heads the binary search goes through when stage 2 is entered
    with the variables [v0]. *)
Inductive reached (v0 : Vars) : Bracket * Vars -> Prop :=
| reached_init : reached v0 (bisect_init v0)
| reached_pass (s s' : Bracket * Vars) :
    reached v0 s -> pass s s' -> reached v0 s'.

(** The pass as a function, to run it. *)
Definition next (w : World) (s : Bracket * Vars) : option (Bracket * Vars) :=
  if attempts (snd s) <? maxAttempts then
    match probe b (snd s) w with
    | (Normal v, _) =>
        if in_range lo hi (currentSize v) then None
        else Some (adjust lo hi (fst s, v))
    | _ => None
    end
  else None.

Fixpoint after (n : nat) (w : World) (s : Bracket * Vars) :
    option (Bracket * Vars) :=
  match n with
  | O => Some s
  | S n' =>
      match next w s with
      | Some s' => after n' w s'
      | None => None
      end
  end.

End Passes.

(** ** Every path of the binary search

    The bounds and the quality depend on the image only through the verdict
    of each pass, too big or too small, so all the brackets the search can
    go through are found by following both verdicts from the initial one. *)

Record QState := {
  q_lo : float;      (* minQuality *)
  q_hi : float;      (* maxQuality *)
  q_cur : float;     (* quality *)
  q_n : Z            (* attempts *)
}.

Definition q_init : QState :=
  {| q_lo := F64.c_0_001; q_hi := F64.c_100; q_cur := F64.c_0_7; q_n := 0 |}.

Definition q_reset (n : Z) : QState :=
  {| q_lo := F64.c_0_01; q_hi := F64.c_0_7; q_cur := F64.c_0_3; q_n := n |}.

(** Whether the pass that starts in [s] and measures too big resets. *)
Definition fires (big : bool) (s : QState) : bool :=
  (q_n s + 1 >? 10) && big.

Definition q_step (big : bool) (s : QState) : QState :=
  if fires big s then q_reset (q_n s + 1)
  else if big then
    {| q_lo := q_lo s; q_hi := q_cur s;
       q_cur := F64.div (F64.add (q_lo s) (q_cur s)) F64.c_2;
       q_n := q_n s + 1 |}
  else
    {| q_lo := q_cur s; q_hi := q_hi s;
       q_cur := F64.div (F64.add (q_cur s) (q_hi s)) F64.c_2;
       q_n := q_n s + 1 |}.

Definition q_run (path : list bool) (s : QState) : QState :=
  fold_left (fun s big => q_step big s) path s.

(** The quality lies within the bounds. *)
Definition within (s : QState) : bool :=
  Qle_bool (F64.to_Q (q_lo s)) (F64.to_Q (q_cur s)) &&
  Qle_bool (F64.to_Q (q_cur s)) (F64.to_Q (q_hi s)).

(** [within] at [s] and at all loop heads fewer than [d] passes after it,
    not followed beyond a reset. *)
Fixpoint explore (d : nat) (s : QState) : bool :=
  match d with
  | O => true
  | S d' =>
      within s && explore d' (q_step false s) &&
      (if fires true s then true else explore d' (q_step true s))
  end.

(** The passes that follow a reset, for each attempt it can happen at. *)
Definition resets_explored : bool :=
  forallb (fun n => explore (Z.to_nat (20 - n)) (q_reset n))
          [11; 12; 13; 14; 15; 16; 17; 18; 19; 20].

(** The bounds, the quality and the attempt counter at a loop head. *)
Definition abstract (s : Bracket * Vars) : QState :=
  {| q_lo := minQuality (fst s); q_hi := maxQuality (fst s);
     q_cur := quality (snd s); q_n := attempts (snd s) |}.

(** * Properties *)

(** ** The size estimator *)

Lemma split_without_sep (sep : ascii) (s : string) :
  occurs sep s = false -> split sep s = [s].
Proof.
  induction s as [|c rest IH]; simpl; intros H; [reflexivity|].
  apply orb_false_iff in H as [Hc Hrest].
  rewrite Hc, (IH Hrest). reflexivity.
Qed.

Lemma split_at_first_sep (sep : ascii) (s1 s2 : string) :
  occurs sep s1 = false ->
  split sep (s1 ++ String sep s2) = s1 :: split sep s2.
Proof.
  induction s1 as [|c rest IH]; simpl; intros H.
  - rewrite Ascii.eqb_refl. reflexivity.
  - apply orb_false_iff in H as [Hc Hrest].
    rewrite Hc, (IH Hrest). reflexivity.
Qed.

Lemma get_occurs (s : string) (n : nat) (c : ascii) :
  String.get n s = Some c -> occurs c s = true.
Proof.
  revert n; induction s as [|c' rest IH]; intros [|n]; simpl;
    try discriminate.
  - intros [= ->]. now rewrite Ascii.eqb_refl.
  - intros H. rewrite (IH _ H). apply orb_true_r.
Qed.

Lemma digit_not_comma (n : N) : Ascii.eqb (Base64.digit n) "," = false.
Proof.
  unfold Base64.digit.
  destruct (String.get (N.to_nat n) Base64.alphabet) as [c|] eqn:E;
    [|reflexivity].
  apply get_occurs in E.
  destruct (Ascii.eqb c ",") eqn:C; [|reflexivity].
  apply Ascii.eqb_eq in C. subst c. discriminate E.
Qed.

(** Induction over a buffer three bytes at a time. *)
Lemma triples_ind (P : list byte -> Prop) :
  P [] -> (forall a, P [a]) -> (forall a b, P [a; b]) ->
  (forall a b c rest, P rest -> P (a :: b :: c :: rest)) ->
  forall bs, P bs.
Proof.
  intros H0 H1 H2 H3.
  fix IH 1.
  intros [|a [|b [|c rest]]];
    [apply H0 | apply H1 | apply H2 | apply H3, IH].
Qed.

Lemma encode_without_comma (bs : list byte) :
  occurs "," (Base64.encode bs) = false.
Proof.
  induction bs as [| a | a b | a b c rest IH] using triples_ind;
    cbn [Base64.encode occurs]; rewrite ?digit_not_comma, ?IH; reflexivity.
Qed.

Lemma encode_length (bs : list byte) :
  Z.of_nat (String.length (Base64.encode bs)) =
  4 * ((Z.of_nat (List.length bs) + 2) / 3).
Proof.
  induction bs as [| a | a b | a b c rest IH] using triples_ind;
    try reflexivity.
  cbn [Base64.encode String.length List.length].
  rewrite !Nat2Z.inj_succ, IH.
  replace (Z.succ (Z.succ (Z.succ (Z.of_nat (List.length rest)))) + 2)
    with ((Z.of_nat (List.length rest) + 2) + 1 * 3) by lia.
  rewrite Z.div_add by lia. lia.
Qed.

(** The payload that [calculateImageSize] measures is the base64 text. *)
Lemma calculateImageSize_dataURL (bs : list byte) :
  calculateImageSize (Base64.dataURL bs) =
  Some (Math_round
          (inject_Z (4 * ((Z.of_nat (List.length bs) + 2) / 3)) * 3 / 4 /
           1024)%Q).
Proof.
  unfold calculateImageSize, Base64.dataURL.
  change ("data:image/jpeg;base64," ++ Base64.encode bs)
    with ("data:image/jpeg;base64" ++ String "," (Base64.encode bs)).
  rewrite split_at_first_sep by reflexivity.
  rewrite split_without_sep by apply encode_without_comma.
  cbn [nth_error]. now rewrite encode_length.
Qed.

Lemma Math_round_Qeq (x y : Q) : (x == y)%Q -> Math_round x = Math_round y.
Proof.
  intros H. unfold Math_round. apply Qfloor_comp. now rewrite H.
Qed.

(** Sizes and bounds are printed digit by digit up to 21 digits, rounded to
    the digits a double keeps, and in exponent form beyond. *)
Lemma show_follows_Number_toString :
  show 0 = "0" /\ show 4 = "4" /\ show 1024 = "1024" /\
  show (2 ^ 60) = "1152921504606847000" /\
  show (10 ^ 21 - 2 ^ 17) = "999999999999999900000" /\
  show (10 ^ 21) = "1e+21" /\
  show (2 ^ 70) = "1.1805916207174113e+21".
Proof. repeat split; vm_compute; reflexivity. Qed.

(** C2 (the code at a failing input): a buffer of 1535 bytes is 1 KB when
    its bytes are counted, as the comment of line 53 announces.  Its base64
    text has 2048 characters, two of them padding, and
    [calculateImageSize] reports 2 KB for its data URL: the padding is
    counted as payload. *)
Lemma C2_estimator_counts_padding :
  let bs := repeat x00 1535 in
  Z.of_nat (List.length bs) = 1535 /\
  estimateKB bs = 1 /\
  Z.of_nat (String.length (Base64.encode bs)) = 2048 /\
  calculateImageSize (Base64.dataURL bs) = Some 2.
Proof.
  cbv zeta. rewrite calculateImageSize_dataURL, encode_length.
  unfold estimateKB. rewrite repeat_length.
  repeat split; vm_compute; reflexivity.
Qed.

(** ** Running the monad *)

Lemma encode_run (b : Browser) (c : Canvas) (q : float) (w : World) :
  encode b c q w =
  (Normal (toDataURL b c q),
   {| app := app w; events := events w ++ [Encode c q] |}).
Proof. reflexivity. Qed.

Lemma measure_run (b : Browser) (d : string) (w : World) :
  measure b d w =
  match calculateImageSize d with
  | Some kb => (Normal kb, w)
  | None => (Thrown (type_error_message b), w)
  end.
Proof. unfold measure. now destruct (calculateImageSize d). Qed.

(** ** Rejected calls *)

(** C4: with [minSize >= maxSize] the call returns after writing the error
    cell only, and the browser is asked nothing: no decode, zero encodes.
    With an image uploaded the error is the one for the range. *)
Theorem C4_invalid_range_rejected_before_any_work
    (fuel : nat) (b : Browser) (st : AppState) :
  minSize st >= maxSize st ->
  exists msg,
    run fuel b st =
    (Returned, {| app := setError (Some msg) st; events := [] |}) /\
    (image st <> None -> truthy (preview st) = true ->
     msg = "Minimum size must be less than maximum size").
Proof.
  intros Hr. unfold run, processImage. cbn [app].
  destruct (image st) as [f|] eqn:Hi.
  - destruct (truthy (preview st)) eqn:Hp.
    + destruct (preview st) as [src|]; [|discriminate Hp].
      destruct (Z.geb_spec (minSize st) (maxSize st)); [|lia].
      eexists. split; reflexivity.
    + destruct (preview st); eexists; (split; [reflexivity | discriminate]).
  - destruct (truthy (preview st)), (preview st); eexists;
      (split; [reflexivity | intros H; now destruct H]).
Qed.

(** The two guards of lines 58-66. *)
Lemma run_rejected (fuel : nat) (b : Browser) (st : AppState) :
  image st = None \/ truthy (preview st) = false \/ minSize st >= maxSize st ->
  exists msg,
    run fuel b st =
    (Returned, {| app := setError (Some msg) st; events := [] |}).
Proof.
  intros H. unfold run, processImage. cbn [app].
  destruct (image st) as [f|] eqn:Hi.
  - destruct (truthy (preview st)) eqn:Hp.
    + destruct H as [H | [H | H]]; try discriminate.
      destruct (preview st) as [src|]; [|discriminate Hp].
      destruct (Z.geb_spec (minSize st) (maxSize st)); [|lia].
      eexists. reflexivity.
    + destruct (preview st); eexists; reflexivity.
  - destruct (truthy (preview st)), (preview st); eexists; reflexivity.
Qed.

(** C10: without an image, or with [minSize >= maxSize], the call returns
    after writing the error cell only: the stored result is unchanged and the
    browser is asked nothing (no decoding, no encoding). *)
Theorem C10_rejection_leaves_result_untouched
    (fuel : nat) (b : Browser) (st : AppState) :
  image st = None \/ truthy (preview st) = false \/ minSize st >= maxSize st ->
  exists msg,
    run fuel b st =
    (Returned, {| app := setError (Some msg) st; events := [] |}) /\
    processedImage (setError (Some msg) st) = processedImage st /\
    processedSize (setError (Some msg) st) = processedSize st.
Proof.
  intros H. destruct (run_rejected fuel b st H) as [msg E].
  exists msg. repeat split. exact E.
Qed.

(** ** The three loops *)

Lemma encode_then_measure {A} (b : Browser) (c : Canvas) (q : float)
    (k : string -> Z -> M A) (w : World) :
  (d <- encode b c q ;; kb <- measure b d ;; k d kb) w =
  let w1 := {| app := app w; events := events w ++ [Encode c q] |} in
  match calculateImageSize (toDataURL b c q) with
  | Some kb => k (toDataURL b c q) kb w1
  | None => (Thrown (type_error_message b), w1)
  end.
Proof.
  unfold bind at 1. rewrite encode_run.
  unfold bind at 1. rewrite measure_run.
  now destruct (calculateImageSize (toDataURL b c q)).
Qed.

(** After ten increments the enlargement factor is 3.0000000000000004. *)
Lemma enlarge_scale_10 :
  enlarge_scale 10 = S754_finite false 6755399441055745 (-51).
Proof. vm_compute. reflexivity. Qed.

Lemma enlarge_scale_stops : F64.ltb (enlarge_scale 10) F64.c_3_0 = false.
Proof. vm_compute. reflexivity. Qed.

(** After eight decrements the reduction factor is 0.10000000000000014,
    still above 0.1; the ninth leaves 1.3877787807814457e-16. *)
Lemma shrink_scale_8 :
  shrink_scale 8 = S754_finite false 7205759403792804 (-56) /\
  F64.ltb F64.c_0_1 (shrink_scale 8) = true.
Proof. vm_compute. split; reflexivity. Qed.

Lemma shrink_scale_9 :
  shrink_scale 9 = S754_finite false 5629499534213120 (-105).
Proof. vm_compute. reflexivity. Qed.

Lemma shrink_scale_stops : F64.ltb F64.c_0_1 (shrink_scale 9) = false.
Proof. vm_compute. reflexivity. Qed.

Section LoopFacts.

Variable b : Browser.
Variables lo hi : Z.

Lemma loop_post_stay (fuel bound : nat) (v : Vars) (w : World) :
  loop_post b fuel bound false v w (Normal v, w).
Proof.
  exists []. cbn. rewrite app_nil_r. repeat split; auto. lia.
Qed.

Lemma loop_post_starved (fuel bound : nat) (e : bool) (v : Vars)
    (w : World) :
  (fuel < bound)%nat -> loop_post b fuel bound e v w (Starved, w).
Proof.
  intros H. exists []. cbn. rewrite app_nil_r. repeat split; auto. lia.
Qed.

(** One pass that encodes into [v1], followed by the rest of the loop. *)
Lemma loop_post_pass (fuel bound : nat) (e e1 : bool) (v v1 : Vars)
    (w : World) (c : Canvas) (q : float) (r : Outcome Vars * World) :
  measured v1 -> dataUrl v1 = toDataURL b c q ->
  loop_post b fuel bound e1 v1
    {| app := app w; events := events w ++ [Encode c q] |} r ->
  loop_post b (S fuel) (S bound) e v w r.
Proof.
  intros Hm Hd (evs & Ha & He & Hl & Hf & Ho).
  exists (Encode c q :: evs). cbn [app events] in *.
  rewrite Ha, He, <- app_assoc. repeat split; cbn; auto; try lia.
  destruct (fst r) as [v' | | msg | |]; auto; try lia.
  right. destruct Ho as [(-> & -> & _) | [Hm' (c' & q' & Hin & Hd')]].
  - split; [assumption|]. exists c, q. cbn. auto.
  - split; [assumption|]. exists c', q'. cbn. auto.
Qed.

Lemma loop_post_thrown (fuel bound : nat) (e : bool) (v : Vars) (w : World)
    (c : Canvas) (q : float) (msg : string) :
  calculateImageSize (toDataURL b c q) = None ->
  loop_post b fuel (S bound) e v w
    (Thrown msg, {| app := app w; events := events w ++ [Encode c q] |}).
Proof.
  intros H. exists [Encode c q]. cbn. repeat split; auto; try lia.
  now exists c, q.
Qed.

Ltac split_on_measurement :=
  match goal with
  | |- context [calculateImageSize (toDataURL b ?c ?q)] =>
      let kb := fresh "kb" in
      let E := fresh "E" in
      destruct (calculateImageSize (toDataURL b c q)) as [kb|] eqn:E
  end.

Lemma enlarge_spec (m : nat) :
  forall (k fuel : nat) (v : Vars) (w : World),
    (k + m = 10)%nat ->
    loop_post b fuel m
      ((currentSize v <? lo) && F64.ltb (enlarge_scale k) F64.c_3_0) v w
      (enlarge b lo fuel (enlarge_scale k) v w).
Proof.
  induction m as [|m IH]; intros k fuel v w Hk.
  - replace k with 10%nat by lia.
    destruct fuel; cbn [enlarge];
      rewrite enlarge_scale_stops, andb_false_r; apply loop_post_stay.
  - destruct fuel as [|fuel]; cbn [enlarge];
      destruct ((currentSize v <? lo) && _); try apply loop_post_stay.
    + apply loop_post_starved. lia.
    + rewrite encode_then_measure. cbv zeta. split_on_measurement.
      * destruct (kb >=? lo).
        -- eapply loop_post_pass; [| | apply loop_post_stay];
             [exact E | reflexivity].
        -- eapply loop_post_pass; [| | apply (IH (S k)); lia];
             [exact E | reflexivity].
      * now apply loop_post_thrown.
Qed.

Lemma shrink_spec (iw ih : Z) (m : nat) :
  forall (k fuel : nat) (v : Vars) (w : World),
    (k + m = 9)%nat ->
    loop_post b fuel m
      ((currentSize v >? hi) && F64.ltb F64.c_0_1 (shrink_scale k)) v w
      (shrink b hi iw ih fuel (shrink_scale k) v w).
Proof.
  induction m as [|m IH]; intros k fuel v w Hk.
  - replace k with 9%nat by lia.
    destruct fuel; cbn [shrink];
      rewrite shrink_scale_stops, andb_false_r; apply loop_post_stay.
  - destruct fuel as [|fuel]; cbn [shrink];
      destruct ((currentSize v >? hi) && _); try apply loop_post_stay.
    + apply loop_post_starved. lia.
    + rewrite encode_then_measure. cbv zeta. split_on_measurement.
      * destruct (kb <=? hi).
        -- eapply loop_post_pass; [| | apply loop_post_stay];
             [exact E | reflexivity].
        -- eapply loop_post_pass; [| | apply (IH (S k)); lia];
             [exact E | reflexivity].
      * now apply loop_post_thrown.
Qed.

Lemma probe_run (v : Vars) (w : World) :
  let v1 := set_attempts (attempts v + 1) v in
  let c := drawImage (width v1) (height v1) (clearRect (canvas v1)) in
  let w1 := {| app := app w; events := events w ++ [Encode c (quality v)] |} in
  probe b v w =
  match calculateImageSize (toDataURL b c (quality v)) with
  | Some kb =>
      (Normal (set_result (toDataURL b c (quality v)) kb (set_canvas c v1)),
       w1)
  | None => (Thrown (type_error_message b), w1)
  end.
Proof.
  unfold probe. rewrite encode_then_measure. cbn.
  now destruct (calculateImageSize _).
Qed.

Lemma adjust_keeps (s : Bracket * Vars) :
  attempts (snd (adjust lo hi s)) = attempts (snd s) /\
  dataUrl (snd (adjust lo hi s)) = dataUrl (snd s) /\
  currentSize (snd (adjust lo hi s)) = currentSize (snd s).
Proof.
  destruct s as [br v]. unfold adjust.
  destruct (currentSize v >? hi) eqn:E; [|destruct (currentSize v <? lo)];
    cbn [attempts currentSize set_quality]; rewrite E;
    destruct (attempts v >? 10); cbn [andb snd]; auto.
Qed.

Lemma bisect_spec (m : nat) :
  forall (fuel : nat) (s : Bracket * Vars) (w : World),
    (Z.to_nat (maxAttempts - attempts (snd s)) <= m)%nat ->
    loop_post b fuel m (attempts (snd s) <? maxAttempts) (snd s) w
      (bisect b lo hi fuel s w).
Proof.
  induction m as [|m IH]; intros fuel s w Hm.
  - destruct fuel; cbn [bisect];
      (destruct (Z.ltb_spec (attempts (snd s)) maxAttempts); [lia|]);
      apply loop_post_stay.
  - destruct fuel as [|fuel]; cbn [bisect];
      destruct (Z.ltb_spec (attempts (snd s)) maxAttempts);
      try apply loop_post_stay.
    + apply loop_post_starved. lia.
    + unfold bind. rewrite probe_run. cbv zeta. split_on_measurement.
      * match goal with
        | |- context [in_range lo hi ?x] => destruct (in_range lo hi x)
        end.
        -- eapply loop_post_pass; [| | apply loop_post_stay];
             [exact E | reflexivity].
        -- match goal with
           | |- context [adjust lo hi ?x] =>
               destruct (adjust_keeps x) as (Ha & Hd & Hc);
               eapply loop_post_pass; [| | apply IH]
           end.
           ++ unfold measured. rewrite Hd, Hc. exact E.
           ++ rewrite Hd. reflexivity.
           ++ rewrite Ha.
              cbn [snd attempts set_result set_canvas set_attempts].
              unfold maxAttempts in *. lia.
      * now apply loop_post_thrown.
Qed.

End LoopFacts.

(** ** The stages *)

Section StageFacts.

Variable b : Browser.
Variables lo hi iw ih : Z.

Lemma report_run (v : Vars) (w : World) :
  report lo hi v w =
  (Normal tt,
   {| app := reported lo hi (dataUrl v) (currentSize v) (app w);
      events := events w |}).
Proof.
  unfold report, reported, bind, setState, ret. cbn [app events].
  destruct (currentSize v <? lo); [reflexivity|].
  destruct (currentSize v >? hi); reflexivity.
Qed.

Lemma baseline_run (w : World) :
  baseline b iw ih w =
  if has_context b then
    let d0 := toDataURL b (canvas0 iw ih) F64.c_1_0 in
    let w1 :=
      {| app := app w;
         events := events w ++ [Encode (canvas0 iw ih) F64.c_1_0] |} in
    match calculateImageSize d0 with
    | Some kb0 => (Normal (d0, kb0, vars0 iw ih), w1)
    | None => (Thrown (type_error_message b), w1)
    end
  else (Thrown "Could not get canvas context", w).
Proof.
  unfold baseline. destruct (has_context b); [|reflexivity].
  cbv zeta. rewrite encode_then_measure. cbv zeta.
  cbn [width height canvas].
  fold (canvas0 iw ih).
  now destruct (calculateImageSize _).
Qed.

Lemma encoded_by_earlier (evs evs' : list Event) (v : Vars) :
  encoded_by b evs v -> encoded_by b (evs ++ evs') v.
Proof.
  intros (c & q & Hin & Hd).
  exists c, q; (split; [apply in_or_app; auto | assumption]).
Qed.

Lemma encoded_by_later (evs evs' : list Event) (v : Vars) :
  encoded_by b evs v -> encoded_by b (evs' ++ evs) v.
Proof.
  intros (c & q & Hin & Hd).
  exists c, q; (split; [apply in_or_app; auto | assumption]).
Qed.

Lemma enlarge_entry : F64.ltb (enlarge_scale 0) F64.c_3_0 = true.
Proof. vm_compute. reflexivity. Qed.

Lemma stage1_spec (fuel : nat) (kb0 : Z) (v : Vars) (w : World) :
  currentSize v = 0 ->
  stage1_post b lo fuel kb0 v w (stage1 b lo fuel kb0 v w).
Proof.
  intros Hv. unfold stage1, stage1_post.
  destruct (Z.ltb_spec kb0 lo) as [Hlt|Hge].
  2:{ exists []. cbn. rewrite app_nil_r. repeat split; auto; try lia. }
  change F64.c_1_0 with (enlarge_scale 0).
  pose proof (enlarge_spec b lo 10 0 fuel v w eq_refl) as H.
  unfold bind.
  destruct (enlarge b lo fuel (enlarge_scale 0) v w) as [o w1].
  destruct H as (evs & Ha & He & Hl & Hf & Ho). cbn [fst snd] in *.
  exists evs.
  destruct o as [v' | | msg | |]; try contradiction;
    cbn [fst snd]; try (repeat split; auto; fail).
  destruct (Z.ltb_spec (currentSize v') lo) as [Hlow|Hok].
  - cbn [fst snd setState ret return_ app events].
    repeat split; auto.
    destruct Ho as [(-> & -> & He0) | [Hm Henc]].
    + rewrite enlarge_entry, andb_true_r in He0.
      apply Z.ltb_ge in He0. lia.
    + exists v'. repeat split; auto. now rewrite Ha.
  - cbn [fst snd ret]. repeat split; auto.
Qed.

Lemma stage2_spec (fuel : nat) (d0 : string) (kb0 : Z) (v : Vars)
    (w : World) :
  attempts v = 0 ->
  stage2_post b hi fuel d0 kb0 w (stage2 b lo hi iw ih fuel d0 kb0 v w).
Proof.
  intros Hv. unfold stage2, stage2_post.
  destruct (kb0 >? hi) eqn:Hbig.
  2:{ exists []. cbn. rewrite app_nil_r. repeat split; auto; try lia. }
  pose proof (bisect_spec b lo hi 20 fuel (bisect_init v) w) as H.
  unfold bind.
  destruct (bisect b lo hi fuel (bisect_init v) w) as [o w1].
  cbn [bisect_init snd attempts set_quality set_canvas] in H.
  rewrite Hv in H. specialize (H ltac:(cbn; lia)).
  destruct H as (evs & Ha & He & Hl & Hf & Ho). cbn [fst snd] in *.
  destruct o as [v' | | msg | |]; try contradiction.
  - destruct Ho as [(_ & _ & He0) | [Hm Henc]]; [discriminate He0|].
    destruct (currentSize v' >? hi).
    + change F64.c_0_9 with (shrink_scale 0).
      pose proof (shrink_spec b hi iw ih 9 0 fuel v' w1 eq_refl) as H.
      destruct (shrink b hi iw ih fuel (shrink_scale 0) v' w1) as [o w2].
      destruct H as (evs' & Ha' & He' & Hl' & Hf' & Ho'). cbn [fst snd] in *.
      exists (evs ++ evs')%list. cbn [fst snd].
      rewrite Ha', He', Ha, He, app_assoc, length_app, forallb_app, Hf, Hf'.
      repeat split; auto; try lia.
      destruct o as [v'' | | msg | |]; try contradiction; auto; try lia.
      right. destruct Ho' as [(-> & -> & _) | [Hm' Henc']].
      * repeat split; auto. now apply encoded_by_earlier.
      * repeat split; auto. now apply encoded_by_later.
    + exists evs. cbn [ret fst snd]. repeat split; auto; lia.
  - exists evs. cbn [fst snd]. repeat split; auto; lia.
  - exists evs. cbn [fst snd]. repeat split; auto; lia.
Qed.

Lemma search_spec (fuel : nat) (w : World) :
  has_context b = true -> lo < hi ->
  search_post b lo hi iw ih fuel w (search b lo hi iw ih fuel w).
Proof.
  intros Hctx Hlh. unfold search, search_post. cbv zeta.
  unfold bind. rewrite baseline_run, Hctx. cbv zeta.
  set (d0 := toDataURL b (canvas0 iw ih) F64.c_1_0).
  set (e0 := Encode (canvas0 iw ih) F64.c_1_0).
  destruct (calculateImageSize d0) as [kb0|] eqn:E0.
  2:{ exists []. cbn [fst snd app events List.length forallb].
      repeat split; auto; try lia.
      exists (canvas0 iw ih), F64.c_1_0. exact E0. }
  set (w1 := {| app := app w; events := events w ++ [e0] |}).
  pose proof (stage1_spec fuel kb0 (vars0 iw ih) w1 eq_refl) as H1.
  destruct (stage1 b lo fuel kb0 (vars0 iw ih) w1) as [o1 w2].
  destruct H1 as (evs1 & He1 & Hl1 & Hf1 & Ho1). cbn [fst snd] in *.
  assert (Hev : forall l, ((events w ++ [e0]) ++ l = events w ++ e0 :: l)%list)
    by (intros l; now rewrite <- app_assoc).
  subst w1. cbn [app events] in *. rewrite Hev in He1.
  destruct o1 as [v1 | | msg | |]; try contradiction.
  - destruct Ho1 as [Ha1 Hc1].
    assert (Hat : attempts v1 = 0 \/ kb0 < lo).
    { destruct Hc1 as [(_ & -> & _) | Hlt]; auto. }
    assert (H2 : stage2_post b hi fuel d0 kb0 w2
                   (stage2 b lo hi iw ih fuel d0 kb0 v1 w2)).
    { destruct Hat as [Hat | Hlt]; [now apply stage2_spec|].
      unfold stage2, stage2_post.
      destruct (Z.gtb_spec kb0 hi); [lia|].
      exists []. cbn. rewrite app_nil_r. repeat split; auto; try lia. }
    destruct (stage2 b lo hi iw ih fuel d0 kb0 v1 w2) as [o2 w3].
    destruct H2 as (evs2 & Ha2 & He2 & Hl2 & Hf2 & Ho2). cbn [fst snd] in *.
    assert (Hlen : (List.length (evs1 ++ evs2) <= 39)%nat)
      by (rewrite length_app; lia).
    assert (Hfor : forallb is_encode (evs1 ++ evs2) = true)
      by (now rewrite forallb_app, Hf1, Hf2).
    assert (Hevs : events w3 = (events w ++ e0 :: evs1 ++ evs2)%list).
    { rewrite He2, He1, <- app_assoc. reflexivity. }
    exists (evs1 ++ evs2)%list.
    destruct o2 as [v2 | | msg | |]; try contradiction.
    + rewrite report_run. cbn [fst snd app events].
      repeat split; auto.
      exists (dataUrl v2), (currentSize v2).
      rewrite Ha2, Ha1.
      destruct Ho2 as [(Hsmall & Hd & Hk & ->) |
                       (Hbig & Hm & c & q & Hin & Hd)].
      * rewrite Hd, Hk. split; [exact E0 | split; [|split]].
        -- exists (canvas0 iw ih), F64.c_1_0. split; [now left | reflexivity].
        -- reflexivity.
        -- intros kb0' Hk0 _. split; congruence.
      * split; [exact Hm | split; [|split]].
        -- exists c, q. split; [|assumption].
           right. apply in_or_app. now right.
        -- reflexivity.
        -- intros kb0' Hk0 Hle. apply Z.gtb_lt in Hbig.
           assert (kb0' = kb0) by congruence. lia.
    + cbn [fst snd]. repeat split; auto. congruence.
    + cbn [fst snd]. repeat split; auto. congruence.
  - destruct Ho1 as (Hlt & v' & Hm & Henc & Hlow & Ha).
    exists evs1. cbn [fst snd]. repeat split; auto; try lia.
    exists (dataUrl v'), (currentSize v'). repeat split; auto.
  - cbn [fst snd]. exists evs1. repeat split; try tauto; lia.
  - cbn [fst snd]. exists evs1. repeat split; try tauto; lia.
Qed.

End StageFacts.

(** ** Whole runs *)

(** A call that passes the two guards and whose image loads. *)
Lemma run_accepted (fuel : nat) (b : Browser) (st : AppState) (f : File)
    (src : string) (iw ih : Z) :
  image st = Some f ->
  preview st = Some src ->
  truthy (preview st) = true ->
  minSize st < maxSize st ->
  load_image b src = Some (iw, ih) ->
  run fuel b st =
  match
    search b (minSize st) (maxSize st) iw ih fuel
      {| app := setError None (setLoading true st); events := [Decode src] |}
  with
  | (Normal _, w') => (Normal tt, finished (app w') (events w'))
  | (Returned, w') => (Returned, finished (app w') (events w'))
  | (Thrown msg, w') =>
      (Normal tt,
       finished
         (setError (Some ("Error processing image: " ++ msg)) (app w'))
         (events w'))
  | (Pending, w') => (Pending, w')
  | (Starved, w') => (Starved, w')
  end.
Proof.
  intros Hi Hp Ht Hr Hl. unfold run, processImage. cbn [app].
  rewrite Hi, Ht, Hp.
  destruct (Z.geb_spec (minSize st) (maxSize st)); [lia|].
  unfold bind at 1 2, setState at 1 2. cbn [app events].
  unfold try_catch_finally.
  unfold bind at 1 2, emit, await. cbn [app events]. rewrite Hl.
  cbn [fst snd List.app].
  destruct (search _ _ _ _ _ _ _) as [[u | | msg | |] w']; reflexivity.
Qed.

Lemma search_without_context (fuel : nat) (b : Browser) (lo hi iw ih : Z)
    (w : World) :
  has_context b = false ->
  search b lo hi iw ih fuel w = (Thrown "Could not get canvas context", w).
Proof.
  intros H. unfold search, bind. rewrite baseline_run, H. reflexivity.
Qed.

(** An original within the range is reported after a single encoding. *)
Lemma search_within_range (fuel : nat) (b : Browser) (lo hi iw ih : Z)
    (w : World) (kb0 : Z) :
  has_context b = true ->
  calculateImageSize (toDataURL b (canvas0 iw ih) F64.c_1_0) = Some kb0 ->
  lo <= kb0 <= hi ->
  search b lo hi iw ih fuel w =
  (Normal tt,
   {| app := with_result (toDataURL b (canvas0 iw ih) F64.c_1_0) kb0 (app w);
      events := events w ++ [Encode (canvas0 iw ih) F64.c_1_0] |}).
Proof.
  intros Hctx E0 Hin. unfold search, bind.
  rewrite baseline_run, Hctx. cbv zeta. rewrite E0.
  unfold stage1. destruct (Z.ltb_spec kb0 lo); [lia|]. unfold ret at 1.
  unfold stage2. destruct (Z.gtb_spec kb0 hi); [lia|]. unfold ret at 1.
  rewrite report_run. cbn [dataUrl currentSize set_result app events].
  unfold reported.
  destruct (Z.ltb_spec kb0 lo); [lia|].
  destruct (Z.gtb_spec kb0 hi); [lia|]. reflexivity.
Qed.

(** C5: when the encoding of the original (native dimensions, quality 1.0)
    already measures within [[minSize, maxSize]], the run reports exactly
    that data URL and that size, sets no message, and asks the browser for
    nothing beyond loading the image and that one encoding: no enlargement,
    bisection or shrink pass is made. *)
Theorem C5_original_within_range_is_returned_unchanged
    (fuel : nat) (b : Browser) (st : AppState) (f : File) (src : string)
    (iw ih kb0 : Z) :
  image st = Some f ->
  preview st = Some src ->
  truthy (preview st) = true ->
  minSize st < maxSize st ->
  load_image b src = Some (iw, ih) ->
  has_context b = true ->
  calculateImageSize (toDataURL b (canvas0 iw ih) F64.c_1_0) = Some kb0 ->
  minSize st <= kb0 <= maxSize st ->
  exists w',
    run fuel b st = (Normal tt, w') /\
    processedImage (app w') = Some (toDataURL b (canvas0 iw ih) F64.c_1_0) /\
    processedSize (app w') = Some kb0 /\
    error (app w') = None /\
    loading (app w') = false /\
    events w' = [Decode src; Encode (canvas0 iw ih) F64.c_1_0].
Proof.
  intros Hi Hp Ht Hr Hl Hctx E0 Hin.
  rewrite (run_accepted fuel b st f src iw ih Hi Hp Ht Hr Hl).
  rewrite (search_within_range fuel b _ _ iw ih _ kb0 Hctx E0 Hin).
  eexists. split; [reflexivity|]. repeat split.
Qed.

Lemma reported_fields (lo hi : Z) (d : string) (kb : Z) (st : AppState) :
  processedImage (reported lo hi d kb st) = Some d /\
  processedSize (reported lo hi d kb st) = Some kb /\
  (error st = None -> error (reported lo hi d kb st) = status_message lo hi kb).
Proof.
  unfold reported, status_message.
  destruct (kb <? lo); [|destruct (kb >? hi)]; cbn; auto.
Qed.

(** X22: for an image that loads and a range with [minSize < maxSize], on a
    browser that hands out a drawing context and proper data URLs, a run with
    enough fuel always comes to its end with an output: a data URL returned
    by one of its encodings, the size measured on it, and a message exactly
    when that size is outside the range.  No path ends without an image. *)
Theorem accepted_call_always_stores_one_of_its_encodings
    (fuel : nat) (b : Browser) (st : AppState) (f : File) (src : string)
    (iw ih : Z) :
  image st = Some f ->
  preview st = Some src ->
  truthy (preview st) = true ->
  minSize st < maxSize st ->
  load_image b src = Some (iw, ih) ->
  has_context b = true ->
  well_formed b ->
  (20 <= fuel)%nat ->
  exists w' d kb,
    (run fuel b st = (Normal tt, w') \/ run fuel b st = (Returned, w')) /\
    processedImage (app w') = Some d /\
    processedSize (app w') = Some kb /\
    calculateImageSize d = Some kb /\
    (exists c q, In (Encode c q) (events w') /\ d = toDataURL b c q) /\
    error (app w') = status_message (minSize st) (maxSize st) kb /\
    loading (app w') = false.
Proof.
  intros Hi Hp Ht Hr Hl Hctx Hwf Hfuel.
  rewrite (run_accepted fuel b st f src iw ih Hi Hp Ht Hr Hl).
  set (w0 := {| app := setError None (setLoading true st);
                events := [Decode src] |}).
  pose proof (search_spec b (minSize st) (maxSize st) iw ih fuel w0 Hctx Hr)
    as (evs & He & _ & _ & Ho).
  destruct (search b (minSize st) (maxSize st) iw ih fuel w0)
    as [[u | | msg | |] w']; cbn [fst snd] in *.
  - destruct Ho as (d & kb & Hm & (c & q & Hin & Hd) & Ha & _).
    destruct (reported_fields (minSize st) (maxSize st) d kb (app w0) )
      as (F1 & F2 & F3).
    exists (finished (app w') (events w')), d, kb.
    cbn [finished app events setLoading processedImage processedSize error
         loading].
    rewrite Ha, F1, F2, (F3 eq_refl).
    repeat split; auto.
    exists c, q. split; [|assumption].
    rewrite He. apply in_or_app. now right.
  - destruct Ho as (d & kb & Hm & (c & q & Hin & Hd) & Hlow & Ha).
    exists (finished (app w') (events w')), d, kb.
    cbn [finished app events setLoading processedImage processedSize error
         loading].
    rewrite Ha. unfold gave_up, status_message.
    destruct (Z.ltb_spec kb (minSize st)); [|lia].
    repeat split; auto.
    exists c, q. split; [|assumption].
    rewrite He. apply in_or_app. right. now right.
  - destruct Ho as (_ & c & q & Hnone). now destruct (Hwf c q).
  - contradiction.
  - lia.
Qed.

(** C9: whatever the run does, it either leaves the stored result as it was
    or stores a data URL together with the value of [calculateImageSize] on
    that very data URL.  This covers every path that stores a result: the
    original, the enlargement, the binary search and the forced reduction. *)
Theorem C9_reported_size_is_the_measure_of_the_output
    (fuel : nat) (b : Browser) (st : AppState) :
  let st' := app (snd (run fuel b st)) in
  (processedImage st' = processedImage st /\
   processedSize st' = processedSize st) \/
  (exists d kb,
     processedImage st' = Some d /\ processedSize st' = Some kb /\
     calculateImageSize d = Some kb).
Proof.
  cbv zeta.
  destruct (image st) as [f|] eqn:Hi.
  2:{ left. destruct (run_rejected fuel b st) as (msg & ->); auto. }
  destruct (truthy (preview st)) eqn:Ht.
  2:{ left. destruct (run_rejected fuel b st) as (msg & ->); auto. }
  destruct (Z_lt_ge_dec (minSize st) (maxSize st)) as [Hr|Hr].
  2:{ left. destruct (run_rejected fuel b st) as (msg & ->); auto. }
  destruct (preview st) as [src|] eqn:Hp; [|discriminate Ht].
  destruct (load_image b src) as [[iw ih]|] eqn:Hl.
  2:{ left. unfold run, processImage. cbn [app]. rewrite Hi, Hp, Ht.
      destruct (Z.geb_spec (minSize st) (maxSize st)); [lia|].
      unfold bind, setState, try_catch_finally, emit, await.
      cbn [app events]. rewrite Hl. cbn. auto. }
  assert (Hp' : truthy (preview st) = true) by (now rewrite Hp).
  rewrite (run_accepted fuel b st f src iw ih Hi Hp Hp' Hr Hl).
  set (w0 := {| app := setError None (setLoading true st);
                events := [Decode src] |}).
  destruct (has_context b) eqn:Hctx.
  2:{ left. rewrite search_without_context by assumption. cbn. auto. }
  pose proof (search_spec b (minSize st) (maxSize st) iw ih fuel w0 Hctx Hr)
    as (evs & He & _ & _ & Ho).
  destruct (search b (minSize st) (maxSize st) iw ih fuel w0)
    as [[u | | msg | |] w']; cbn [fst snd] in *.
  - right. destruct Ho as (d & kb & Hm & _ & Ha & _).
    destruct (reported_fields (minSize st) (maxSize st) d kb (app w0) )
      as (F1 & F2 & _).
    exists d, kb.
    cbn [finished app setLoading processedImage processedSize].
    rewrite Ha, F1, F2. auto.
  - right. destruct Ho as (d & kb & Hm & _ & _ & Ha).
    exists d, kb.
    cbn [finished app setLoading processedImage processedSize].
    rewrite Ha. auto.
  - left. destruct Ho as [Ha _].
    cbn [finished app setLoading setError processedImage processedSize].
    rewrite Ha. auto.
  - contradiction.
  - left. destruct Ho as [Ha _]. rewrite Ha. auto.
Qed.

Lemma synthetic_well_formed (iw ih : Z) (bytes : Canvas -> float -> nat) :
  well_formed (synthetic iw ih bytes).
Proof.
  intros c q. cbn [toDataURL synthetic].
  rewrite calculateImageSize_dataURL. discriminate.
Qed.

(** ** The undersized original *)

(** X5: whenever the original measures below [minSize], what the run
    reports is below [minSize] and carries the below-minimum message:
    either the enlargement never reached [minSize] (lines 123-131), or it
    did and the [else] branch of line 210 put the original back. *)
Lemma undersized_original_is_reported_below_minimum
    (fuel : nat) (b : Browser) (st : AppState) (f : File) (src : string)
    (iw ih kb0 : Z) :
  image st = Some f ->
  preview st = Some src ->
  truthy (preview st) = true ->
  minSize st < maxSize st ->
  load_image b src = Some (iw, ih) ->
  has_context b = true ->
  well_formed b ->
  (20 <= fuel)%nat ->
  calculateImageSize (toDataURL b (canvas0 iw ih) F64.c_1_0) = Some kb0 ->
  kb0 < minSize st ->
  exists w' kb,
    (run fuel b st = (Returned, w') \/
     run fuel b st = (Normal tt, w') /\
     processedImage (app w') = Some (toDataURL b (canvas0 iw ih) F64.c_1_0) /\
     kb = kb0) /\
    processedSize (app w') = Some kb /\
    kb < minSize st /\
    error (app w') = Some (below_message (minSize st) kb).
Proof.
  intros Hi Hp Ht Hr Hl Hctx Hwf Hfuel E0 Hlow.
  rewrite (run_accepted fuel b st f src iw ih Hi Hp Ht Hr Hl).
  set (w0 := {| app := setError None (setLoading true st);
                events := [Decode src] |}).
  pose proof (search_spec b (minSize st) (maxSize st) iw ih fuel w0 Hctx Hr)
    as (evs & He & _ & _ & Ho).
  destruct (search b (minSize st) (maxSize st) iw ih fuel w0)
    as [[u | | msg | |] w']; cbn [fst snd] in *.
  - destruct Ho as (d & kb & Hm & _ & Ha & Horig).
    destruct (Horig kb0 E0 ltac:(lia)) as [-> ->].
    exists (finished (app w') (events w')), kb0.
    cbn [finished app events setLoading processedImage processedSize error].
    rewrite Ha. unfold reported.
    destruct (Z.ltb_spec kb0 (minSize st)); [|lia].
    repeat split; auto.
  - destruct Ho as (d & kb & Hm & _ & Hlt & Ha).
    exists (finished (app w') (events w')), kb.
    cbn [finished app events setLoading processedImage processedSize error].
    rewrite Ha. repeat split; auto.
  - destruct Ho as (_ & c & q & Hnone). now destruct (Hwf c q).
  - contradiction.
  - lia.
Qed.

(** C1 (the code at a failing input): a 100 by 100 image whose original
    measures 3 KB and whose first enlargement, 120 by 120, measures 4 KB,
    with the range 4 to 8 KB.  The enlargement reaches the minimum after one
    pass, and the run then reports the 3 KB original together with the
    below-minimum message. *)
Lemma C1_enlarged_candidate_is_discarded :
  let b := synthetic 100 100 by_area in
  let enlarged := drawImage 120 120
                    (set_canvas_height 120
                       (set_canvas_width 120 (canvas0 100 100))) in
  calculateImageSize (toDataURL b (canvas0 100 100) F64.c_1_0) = Some 3 /\
  calculateImageSize (toDataURL b enlarged F64.c_1_0) = Some 4 /\
  exists w',
    run 20 b (uploaded 4 8) = (Normal tt, w') /\
    events w' =
      [Decode photo_url;
       Encode (canvas0 100 100) F64.c_1_0;
       Encode enlarged F64.c_1_0] /\
    processedImage (app w') = Some (toDataURL b (canvas0 100 100) F64.c_1_0) /\
    processedSize (app w') = Some 3 /\
    error (app w') =
      Some "Could not reach minimum size of 4KB. Best result: 3KB".
Proof.
  cbv zeta. split; [vm_compute; reflexivity|].
  split; [vm_compute; reflexivity|].
  eexists. split; [vm_compute; reflexivity|].
  repeat split; vm_compute; reflexivity.
Qed.

(** C3 (the code at a failing input): the same image with the range 5 to
    8 KB.  The second enlargement, 140 by 140, measures 6 KB, within the
    range, and ends the loop of lines 108-120; what the run stores is the
    3 KB original all the same, outside the range, under a message that says
    the minimum could not be reached.  The candidate within the range that
    the search found is not the one it returns. *)
Lemma C3_candidate_within_range_is_not_returned :
  let b := synthetic 100 100 by_area in
  let st := uploaded 5 8 in
  let found := Encode (enlarged_canvas 100 100 2) F64.c_1_0 in
  exists w',
    run 20 b st = (Normal tt, w') /\
    In found (events w') /\
    calculateImageSize (toDataURL b (enlarged_canvas 100 100 2) F64.c_1_0) =
      Some 6 /\
    minSize st <= 6 <= maxSize st /\
    processedImage (app w') = Some (toDataURL b (canvas0 100 100) F64.c_1_0) /\
    processedSize (app w') = Some 3 /\
    error (app w') =
      Some "Could not reach minimum size of 5KB. Best result: 3KB".
Proof.
  cbv zeta. eexists. split; [vm_compute; reflexivity|].
  split; [vm_compute; tauto|].
  repeat split; vm_compute; first [reflexivity | discriminate].
Qed.

(** ** The binary search over the quality *)

(** The attempt counter counts the encodings of the binary search. *)
Lemma bisect_counts (b : Browser) (lo hi : Z) (fuel : nat) :
  forall (s : Bracket * Vars) (w w' : World) (v' : Vars),
    bisect b lo hi fuel s w = (Normal v', w') ->
    Z.of_nat (List.length (events w')) =
    Z.of_nat (List.length (events w)) + (attempts v' - attempts (snd s)).
Proof.
  induction fuel as [|fuel IH]; intros s w w' v'; cbn [bisect];
    destruct (attempts (snd s) <? maxAttempts);
    try (intros [= <- <-]; lia); try discriminate.
  unfold bind. rewrite probe_run. cbv zeta.
  destruct (calculateImageSize _) as [kb|]; [|discriminate].
  match goal with
  | |- context [in_range lo hi ?x] => destruct (in_range lo hi x)
  end.
  - intros [= <- <-]. cbn [events attempts set_result set_canvas set_attempts].
    rewrite length_app. cbn [List.length]. lia.
  - intros H. apply IH in H.
    match type of H with
    | context [adjust lo hi ?x] =>
        destruct (adjust_keeps lo hi x) as (Ha & _); rewrite Ha in H
    end.
    cbn [events snd attempts set_result set_canvas set_attempts] in H.
    rewrite length_app in H. cbn [List.length] in H. lia.
Qed.

(** C8: the binary search, started as line 86 and lines 137-143 start it
    (no attempt made yet), comes to its end with any fuel of twenty or more:
    it never starves.  It makes at most twenty passes, one encoding each and
    counted by [attempts], and leaves the component state alone, so that
    control falls through to the forced reduction or to the report. *)
Theorem C8_bisection_makes_at_most_20_passes
    (b : Browser) (lo hi : Z) (fuel : nat) (v : Vars) (w : World) :
  attempts v = 0 ->
  (20 <= fuel)%nat ->
  exists o w' evs,
    bisect b lo hi fuel (bisect_init v) w = (o, w') /\
    o <> Starved /\
    app w' = app w /\
    events w' = (events w ++ evs)%list /\
    forallb is_encode evs = true /\
    (List.length evs <= 20)%nat /\
    (forall v', o = Normal v' -> attempts v' = Z.of_nat (List.length evs)).
Proof.
  intros Hv Hfuel.
  pose proof (bisect_spec b lo hi 20 fuel (bisect_init v) w) as H.
  cbn [bisect_init snd attempts set_quality set_canvas] in H.
  rewrite Hv in H. specialize (H ltac:(cbn; lia)).
  destruct (bisect b lo hi fuel (bisect_init v) w) as [o w'] eqn:E.
  destruct H as (evs & Ha & He & Hl & Hf & Ho). cbn [fst snd] in *.
  exists o, w', evs. repeat split; auto.
  - intros ->. lia.
  - intros v' ->. apply bisect_counts in E.
    cbn [bisect_init snd attempts set_quality set_canvas] in E.
    rewrite He, length_app in E. lia.
Qed.

(** The quality tried after a first measurement below [minSize]: the
    midpoint of 0.7 and the initial [maxQuality] of 100, which is 50.35. *)
Lemma quality_after_first_too_small (lo hi : Z) (v : Vars) :
  quality v = F64.c_0_7 ->
  attempts v <= 10 ->
  currentSize v <= hi ->
  currentSize v < lo ->
  quality
    (snd (adjust lo hi
            ({| minQuality := F64.c_0_001; maxQuality := F64.c_100 |}, v))) =
  S754_finite false 7086132538690765 (-47).
Proof.
  intros Hq Ha Hhi Hlo. unfold adjust.
  destruct (Z.gtb_spec (currentSize v) hi); [lia|].
  destruct (Z.ltb_spec (currentSize v) lo); [|lia].
  cbn [attempts currentSize set_quality].
  destruct (Z.gtb_spec (attempts v) 10); [lia|].
  cbn [andb snd quality set_quality minQuality maxQuality].
  rewrite Hq. vm_compute. reflexivity.
Qed.

(** C7 (the code at a failing input): an image whose original measures
    29 KB and whose encoding at quality 0.7 measures 3 KB, with the range 10
    to 20 KB.  The first pass of the binary search is too small, and the
    second pass asks the encoder for quality (0.7 + 100) / 2 = 50.35, which
    is above 1. *)
Lemma C7_quality_leaves_the_unit_interval :
  let b := synthetic 100 100 by_quality in
  let c := drawImage 100 100 (canvas0 100 100) in
  let q := F64.div (F64.add F64.c_0_7 F64.c_100) F64.c_2 in
  calculateImageSize (toDataURL b (canvas0 100 100) F64.c_1_0) = Some 29 /\
  calculateImageSize (toDataURL b c F64.c_0_7) = Some 3 /\
  q = S754_finite false 7086132538690765 (-47) /\
  F64.ltb F64.c_1_0 q = true /\
  exists w',
    run 20 b (uploaded 10 20) = (Normal tt, w') /\
    events w' =
      [Decode photo_url;
       Encode (canvas0 100 100) F64.c_1_0;
       Encode c F64.c_0_7;
       Encode c q].
Proof.
  cbv zeta. repeat (split; [vm_compute; reflexivity|]).
  eexists. split; vm_compute; reflexivity.
Qed.

(** *** The width of the bracket *)

Section PassFacts.

Variable b : Browser.
Variables lo hi : Z.

(** [pass] is what [bisect] does between two loop heads. *)
Lemma bisect_pass (fuel : nat) (s s' : Bracket * Vars) (w : World) :
  pass b lo hi s s' ->
  exists w', bisect b lo hi (S fuel) s w = bisect b lo hi fuel s' w'.
Proof.
  intros [s0 v w0 w0' Hlt Hp Hr]. cbn [bisect].
  destruct (Z.ltb_spec (attempts (snd s0)) maxAttempts); [|lia].
  unfold bind. rewrite probe_run in *. cbv zeta in *.
  destruct (calculateImageSize _) as [kb|]; [|discriminate].
  injection Hp as <- _.
  cbn [width height canvas quality set_attempts] in *.
  rewrite Hr. eexists. reflexivity.
Qed.

Lemma next_pass (w : World) (s s' : Bracket * Vars) :
  next b lo hi w s = Some s' -> pass b lo hi s s'.
Proof.
  unfold next. destruct (Z.ltb_spec (attempts (snd s)) maxAttempts) as [H|H];
    [|discriminate].
  destruct (probe b (snd s) w) as [[v | | | |] w'] eqn:E; try discriminate.
  destruct (in_range lo hi (currentSize v)) eqn:R; [discriminate|].
  intros [= <-]. now apply (pass_intro b lo hi s v w w').
Qed.

Lemma after_reached (v0 : Vars) (n : nat) (w : World) :
  forall s s',
    reached b lo hi v0 s -> after b lo hi n w s = Some s' ->
    reached b lo hi v0 s'.
Proof.
  induction n as [|n IH]; cbn [after]; intros s s' Hs.
  - now intros [= <-].
  - destruct (next b lo hi w s) as [s1|] eqn:E; [|discriminate].
    apply IH. eapply reached_pass; [exact Hs | now apply (next_pass w)].
Qed.

End PassFacts.

(** C6 (counterexample): on an encoder that never gets below 3 KB, with the
    range 1 to 2 KB, the eleventh pass finds the size above [maxSize] once
    more and resets the bounds to 0.01 and 0.7: the bracket, which ten
    passes had narrowed to (0.7 - 0.001) / 512, is 0.69 wide again. *)
Lemma C6_reset_widens_the_bracket :
  ~ (forall (b : Browser) (lo hi : Z) (v0 : Vars) (s s' : Bracket * Vars),
       attempts v0 = 0 ->
       reached b lo hi v0 s -> pass b lo hi s s' ->
       (bracket_width (fst s') <= bracket_width (fst s))%Q).
Proof.
  intros H.
  set (b := synthetic 100 100 incompressible).
  set (w := {| app := uploaded 1 2; events := [] |}).
  destruct (after b 1 2 10 w (bisect_init (vars0 100 100))) as [s|] eqn:E10;
    [|vm_compute in E10; discriminate E10].
  destruct (next b 1 2 w s) as [s'|] eqn:E11.
  2:{ vm_compute in E10. injection E10 as <-.
      vm_compute in E11. discriminate E11. }
  specialize (H b 1 2 (vars0 100 100) s s' eq_refl).
  specialize (H (after_reached b 1 2 _ 10 w _ s (reached_init _ _ _ _) E10)).
  specialize (H (next_pass b 1 2 w s s' E11)).
  vm_compute in E10. injection E10 as <-.
  vm_compute in E11. injection E11 as <-.
  vm_compute in H. apply H. reflexivity.
Qed.

(** *** Every path of the binary search *)

Lemma q_step_n (big : bool) (s : QState) : q_n (q_step big s) = q_n s + 1.
Proof. unfold q_step. destruct (fires big s), big; reflexivity. Qed.

Lemma explore_less (d : nat) :
  forall s, explore (S d) s = true -> explore d s = true.
Proof.
  induction d as [|d IH]; intros s; [reflexivity|].
  intros H. change (explore (S (S d)) s) with
    (within s && explore (S d) (q_step false s) &&
     (if fires true s then true else explore (S d) (q_step true s))) in H.
  cbn [explore].
  apply andb_true_iff in H as [H H3]. apply andb_true_iff in H as [H1 H2].
  rewrite H1, (IH _ H2). cbn [andb].
  destruct (fires true s); [reflexivity|]. now apply IH.
Qed.

Lemma explore_fewer (d d' : nat) (s : QState) :
  (d' <= d)%nat -> explore d s = true -> explore d' s = true.
Proof.
  induction 1 as [|d Hle IH]; [auto|].
  intros H. apply IH. now apply explore_less.
Qed.

Lemma resets_explored_at (n : Z) :
  resets_explored = true -> 10 < n <= 20 ->
  explore (Z.to_nat (20 - n)) (q_reset n) = true.
Proof.
  unfold resets_explored. rewrite forallb_forall. intros H Hn.
  apply (H n).
  assert (11 = n \/ 12 = n \/ 13 = n \/ 14 = n \/ 15 = n \/ 16 = n \/
          17 = n \/ 18 = n \/ 19 = n \/ 20 = n) as Hc by lia.
  cbn [In]. tauto.
Qed.

Lemma explore_sound (d : nat) :
  resets_explored = true ->
  forall (s : QState) (path : list bool),
    explore d s = true ->
    q_n s + Z.of_nat d <= 20 ->
    (List.length path < d)%nat ->
    within (q_run path s) = true.
Proof.
  intros HR. induction d as [|d IH]; intros s path He Hn Hp; [lia|].
  cbn [explore] in He.
  apply andb_true_iff in He as [He H3]. apply andb_true_iff in He as [H1 H2].
  destruct path as [|v path]; cbn [q_run fold_left List.length] in *;
    [exact H1|].
  fold (q_run path (q_step v s)).
  apply IH; [| rewrite q_step_n; lia | lia].
  destruct v; [|exact H2].
  destruct (fires true s) eqn:F; [|exact H3].
  unfold q_step. rewrite F.
  unfold fires in F. apply andb_true_iff in F as [F _].
  apply Z.gtb_lt in F.
  apply (explore_fewer (Z.to_nat (20 - (q_n s + 1)))); [lia|].
  apply resets_explored_at; [assumption | lia].
Qed.

Lemma all_paths_explored :
  explore 20 q_init = true /\ resets_explored = true.
Proof. vm_compute. split; reflexivity. Qed.

Lemma adjust_abstract (lo hi : Z) (br : Bracket) (v : Vars) (big : bool) :
  (currentSize v >? hi) = big ->
  (big = false -> (currentSize v <? lo) = true) ->
  let pre := {| q_lo := minQuality br; q_hi := maxQuality br;
                q_cur := quality v; q_n := attempts v - 1 |} in
  abstract (adjust lo hi (br, v)) = q_step big pre /\
  stuck hi (snd (adjust lo hi (br, v))) = fires big pre.
Proof.
  intros Hb Hs. cbv zeta. unfold adjust, stuck, q_step, fires.
  cbn [q_n q_lo q_hi q_cur].
  replace (attempts v - 1 + 1) with (attempts v) by lia.
  rewrite Hb. destruct big.
  - cbn [currentSize attempts set_quality]. rewrite Hb, !andb_true_r.
    destruct (attempts v >? 10) eqn:Ha;
      cbn [snd currentSize attempts set_quality set_canvas set_dims];
      rewrite Hb, Ha; split; reflexivity.
  - rewrite (Hs eq_refl).
    cbn [currentSize attempts set_quality]. rewrite Hb, !andb_false_r.
    cbn [snd currentSize attempts set_quality]. rewrite Hb, andb_false_r.
    split; reflexivity.
Qed.

Lemma pass_abstract (b : Browser) (lo hi : Z) (s s' : Bracket * Vars) :
  pass b lo hi s s' ->
  exists big,
    abstract s' = q_step big (abstract s) /\
    attempts (snd s) < maxAttempts /\
    stuck hi (snd s') = fires big (abstract s).
Proof.
  intros [s0 v w w' Hlt Hp Hr].
  rewrite probe_run in Hp. cbv zeta in Hp.
  destruct (calculateImageSize _) as [kb|]; [|discriminate].
  injection Hp as <- _.
  destruct s0 as [br v0].
  cbn [fst snd currentSize set_result] in *.
  match goal with
  | |- context [adjust lo hi (br, ?x)] => set (v := x) in *
  end.
  assert (Hv : currentSize v = kb /\ attempts v - 1 = attempts v0 /\
               quality v = quality v0).
  { subst v. cbn. repeat split. lia. }
  destruct Hv as (Hk & Ha & Hq).
  exists (kb >? hi).
  destruct (adjust_abstract lo hi br v (kb >? hi)) as [E1 E2].
  - now rewrite Hk.
  - intros Hsmall. rewrite Hk. unfold in_range in Hr.
    destruct (Z.gtb_spec kb hi); [discriminate|].
    destruct (Z.leb_spec kb hi); [|lia]. cbn [andb] in Hr.
    destruct (Z.geb_spec kb lo); [discriminate|]. apply Z.ltb_lt. lia.
  - rewrite Ha, Hq in E1, E2. split; [exact E1|]. split; [exact Hlt | exact E2].
Qed.

Lemma reached_abstract (b : Browser) (lo hi : Z) (v0 : Vars)
    (s : Bracket * Vars) :
  attempts v0 = 0 ->
  reached b lo hi v0 s ->
  exists path,
    abstract s = q_run path q_init /\
    Z.of_nat (List.length path) = attempts (snd s).
Proof.
  intros Hv. induction 1 as [|s s' Hs (path & Ea & El) Hp].
  - exists []. unfold abstract, bisect_init, q_init.
    cbn [fst snd minQuality maxQuality quality attempts set_quality
         set_canvas q_run fold_left List.length].
    now rewrite Hv.
  - destruct (pass_abstract b lo hi s s' Hp) as (big & Eb & _ & _).
    exists (path ++ [big])%list. split.
    + unfold q_run. rewrite fold_left_app. cbn [fold_left].
      fold (q_run path q_init). now rewrite <- Ea.
    + rewrite length_app, Nat2Z.inj_add, El. cbn [List.length].
      change (attempts (snd s')) with (q_n (abstract s')).
      rewrite Eb, q_step_n. reflexivity.
Qed.

(** At every loop head the binary search can reach with a pass still to
    make, the quality lies between [minQuality] and [maxQuality]. *)
Lemma quality_within_bracket
    (b : Browser) (lo hi : Z) (v0 : Vars) (s : Bracket * Vars) :
  attempts v0 = 0 ->
  reached b lo hi v0 s ->
  attempts (snd s) < maxAttempts ->
  (F64.to_Q (minQuality (fst s)) <= F64.to_Q (quality (snd s)))%Q /\
  (F64.to_Q (quality (snd s)) <= F64.to_Q (maxQuality (fst s)))%Q.
Proof.
  intros Hv Hs Hlt.
  destruct (reached_abstract b lo hi v0 s Hv Hs) as (path & Ea & El).
  destruct all_paths_explored as [Hall Hres].
  assert (Hn : within (q_run path q_init) = true).
  { apply (explore_sound 20 Hres); [exact Hall | cbn; lia |].
    unfold maxAttempts in Hlt. lia. }
  rewrite <- Ea in Hn. unfold within, abstract in Hn.
  cbn [q_lo q_hi q_cur] in Hn.
  apply andb_true_iff in Hn as [H1 H2].
  split; now apply Qle_bool_iff.
Qed.

(** C6 (amended): on every path the binary search can take, a pass in which
    the rule of line 175 does not fire leaves the bracket no wider than it
    found it; a pass in which it fires resets the bracket to 0.01 and 0.7. *)
Theorem C6_bracket_narrows_between_resets
    (b : Browser) (lo hi : Z) (v0 : Vars) (s s' : Bracket * Vars) :
  attempts v0 = 0 ->
  reached b lo hi v0 s ->
  pass b lo hi s s' ->
  if stuck hi (snd s')
  then fst s' = {| minQuality := F64.c_0_01; maxQuality := F64.c_0_7 |}
  else (bracket_width (fst s') <= bracket_width (fst s))%Q.
Proof.
  intros Hv Hs Hp.
  destruct (pass_abstract b lo hi s s' Hp) as (big & Eb & Hlt & Hst).
  destruct (quality_within_bracket b lo hi v0 s Hv Hs) as [Hlo Hhi];
    [exact Hlt|].
  unfold q_step in Eb. rewrite <- Hst in Eb.
  destruct s as [br v], s' as [br' v']. unfold abstract in Eb.
  cbn [fst snd q_lo q_hi q_cur q_n] in *.
  destruct (stuck hi v').
  - unfold q_reset in Eb. destruct br'. cbn [minQuality maxQuality] in Eb.
    now injection Eb as -> -> _ _.
  - unfold bracket_width.
    destruct big; injection Eb as -> -> _ _; lra.
Qed.

Lemma C6_bracket_narrows_between_resets_witness :
  let b := synthetic 100 100 incompressible in
  let w := {| app := uploaded 1 2; events := [] |} in
  let s := bisect_init (vars0 100 100) in
  attempts (vars0 100 100) = 0 /\
  match next b 1 2 w s with
  | Some s' =>
      if stuck 2 (snd s')
      then fst s' = {| minQuality := F64.c_0_01; maxQuality := F64.c_0_7 |}
      else (bracket_width (fst s') <= bracket_width (fst s))%Q
  | None => False
  end.
Proof.
  cbv zeta. split; [reflexivity|].
  destruct (next (synthetic 100 100 incompressible) 1 2
              {| app := uploaded 1 2; events := [] |}
              (bisect_init (vars0 100 100))) as [s'|] eqn:E.
  - apply (C6_bracket_narrows_between_resets
             (synthetic 100 100 incompressible) 1 2 (vars0 100 100)
             (bisect_init (vars0 100 100)) s' eq_refl
             (reached_init _ _ _ _) (next_pass _ _ _ _ _ _ E)).
  - vm_compute in E. discriminate E.
Defined.

(** ** The theorems at concrete inputs *)

(** The last two passes of the forced reduction on a width of 100 pixels:
    ten pixels, then none. *)
Example shrink_last_dimensions :
  scale 100 (shrink_scale 8) = 10 /\ scale 100 (shrink_scale 9) = 0.
Proof. vm_compute. split; reflexivity. Qed.

(** The range of scenario D, 100 to 50 KB. *)
Lemma C4_invalid_range_rejected_before_any_work_witness :
  exists msg,
    run 20 (synthetic 100 100 by_area) (uploaded 100 50) =
    (Returned,
     {| app := setError (Some msg) (uploaded 100 50); events := [] |}) /\
    (image (uploaded 100 50) <> None ->
     truthy (preview (uploaded 100 50)) = true ->
     msg = "Minimum size must be less than maximum size").
Proof.
  apply (C4_invalid_range_rejected_before_any_work
           20 (synthetic 100 100 by_area) (uploaded 100 50)).
  cbn. lia.
Defined.

Lemma C10_rejection_leaves_result_untouched_witness :
  exists msg,
    run 20 (synthetic 100 100 by_area) (uploaded 100 50) =
    (Returned,
     {| app := setError (Some msg) (uploaded 100 50); events := [] |}) /\
    processedImage (setError (Some msg) (uploaded 100 50)) =
    processedImage (uploaded 100 50) /\
    processedSize (setError (Some msg) (uploaded 100 50)) =
    processedSize (uploaded 100 50).
Proof.
  apply (C10_rejection_leaves_result_untouched
           20 (synthetic 100 100 by_area) (uploaded 100 50)).
  right. right. cbn. lia.
Defined.

(** A 3 KB original and the range 2 to 4 KB. *)
Lemma C5_original_within_range_is_returned_unchanged_witness :
  exists w',
    run 20 (synthetic 100 100 by_area) (uploaded 2 4) = (Normal tt, w') /\
    processedImage (app w') =
      Some (toDataURL (synthetic 100 100 by_area) (canvas0 100 100)
              F64.c_1_0) /\
    processedSize (app w') = Some 3 /\
    error (app w') = None /\
    loading (app w') = false /\
    events w' = [Decode photo_url; Encode (canvas0 100 100) F64.c_1_0].
Proof.
  apply (C5_original_within_range_is_returned_unchanged
           20 (synthetic 100 100 by_area) (uploaded 2 4) photo photo_url
           100 100 3);
    first [reflexivity | vm_compute; reflexivity | cbn; lia].
Defined.

(** An encoder that cannot get below 3 KB and the range 1 to 2 KB. *)
Lemma accepted_call_always_stores_one_of_its_encodings_witness :
  let b := synthetic 100 100 incompressible in
  let st := uploaded 1 2 in
  exists w' d kb,
    (run 20 b st = (Normal tt, w') \/ run 20 b st = (Returned, w')) /\
    processedImage (app w') = Some d /\
    processedSize (app w') = Some kb /\
    calculateImageSize d = Some kb /\
    (exists c q, In (Encode c q) (events w') /\ d = toDataURL b c q) /\
    error (app w') = status_message (minSize st) (maxSize st) kb /\
    loading (app w') = false.
Proof.
  cbv zeta.
  apply (accepted_call_always_stores_one_of_its_encodings
           20 (synthetic 100 100 incompressible) (uploaded 1 2) photo
           photo_url 100 100);
    first [reflexivity | apply synthetic_well_formed | cbn; lia].
Defined.

Lemma C8_bisection_makes_at_most_20_passes_witness :
  let b := synthetic 100 100 incompressible in
  let w := {| app := uploaded 1 2; events := [] |} in
  exists o w' evs,
    bisect b 1 2 20 (bisect_init (vars0 100 100)) w = (o, w') /\
    o <> Starved /\
    app w' = app w /\
    events w' = (events w ++ evs)%list /\
    forallb is_encode evs = true /\
    (List.length evs <= 20)%nat /\
    (forall v', o = Normal v' -> attempts v' = Z.of_nat (List.length evs)).
Proof.
  cbv zeta.
  apply (C8_bisection_makes_at_most_20_passes
           (synthetic 100 100 incompressible) 1 2 20 (vars0 100 100));
    [reflexivity | lia].
Defined.

(** * Further properties *)

(** ** The size estimator on arbitrary text *)

Lemma split_nonempty (sep : ascii) (s : string) :
  exists hd tl, split sep s = hd :: tl.
Proof.
  induction s as [|c rest (hd & tl & E)]; cbn [split]; eauto.
  destruct (Ascii.eqb c sep); [eauto|]. rewrite E. eauto.
Qed.

Lemma split_with_sep (sep : ascii) (s : string) :
  occurs sep s = true -> exists hd p tl, split sep s = hd :: p :: tl.
Proof.
  induction s as [|c rest IH]; cbn [split occurs]; [discriminate|].
  destruct (Ascii.eqb c sep); cbn [orb].
  - intros _. destruct (split_nonempty sep rest) as (hd & tl & ->). eauto.
  - intros H. destruct (IH H) as (hd & p & tl & ->). eauto.
Qed.

(** [Math.round] of a ratio of integers is a floor division. *)
Lemma Math_round_ratio (a : Z) (d : positive) :
  Math_round (inject_Z a / inject_Z (Zpos d)) =
  (2 * a + Zpos d) / (2 * Zpos d).
Proof.
  unfold Math_round.
  assert (E : (inject_Z a / inject_Z (Zpos d) + (1 # 2) ==
               (2 * a + Zpos d) # (2 * d))%Q).
  { rewrite (Qmake_Qdiv (2 * a + Zpos d) (2 * d)).
    rewrite Pos2Z.inj_mul, inject_Z_plus, !inject_Z_mult.
    field. unfold Qeq. cbn. lia. }
  rewrite (Qfloor_comp _ _ E). reflexivity.
Qed.

(** The arithmetic of line 54 on a payload of [len] characters. *)
Lemma payload_size (len : Z) :
  Math_round (inject_Z len * 3 / 4 / 1024) = (3 * len + 2048) / 4096.
Proof.
  assert (E : (inject_Z len * 3 / 4 / 1024 ==
               inject_Z (3 * len) / inject_Z 4096)%Q).
  { rewrite inject_Z_mult. field. }
  unfold Math_round in *.
  assert (E' : (inject_Z len * 3 / 4 / 1024 + (1 # 2) ==
                inject_Z (3 * len) / inject_Z 4096 + (1 # 2))%Q)
    by (now rewrite E).
  rewrite (Qfloor_comp _ _ E').
  change (Qfloor (inject_Z (3 * len) / inject_Z 4096 + (1 # 2)))
    with (Math_round (inject_Z (3 * len) / inject_Z (Zpos 4096))).
  rewrite Math_round_ratio.
  change (2 * Zpos 4096) with (2 * 4096).
  replace (2 * (3 * len) + 4096) with (2 * (3 * len + 2048)) by lia.
  rewrite Z.div_mul_cancel_l by lia. reflexivity.
Qed.

(** X1: [calculateImageSize] raises its [TypeError] exactly on text without
    a comma; on any other text it returns a size that is not negative. *)
Theorem calculateImageSize_fails_without_comma (dataUrl : string) :
  (calculateImageSize dataUrl = None <-> occurs "," dataUrl = false) /\
  (forall kb, calculateImageSize dataUrl = Some kb -> 0 <= kb).
Proof.
  unfold calculateImageSize. split; [split|].
  - destruct (occurs "," dataUrl) eqn:E; [|reflexivity].
    destruct (split_with_sep _ _ E) as (hd & p & tl & ->). discriminate.
  - intros E. rewrite (split_without_sep _ _ E). reflexivity.
  - intros kb. destruct (nth_error _ 1) as [p|]; [|discriminate].
    intros [= <-]. rewrite payload_size.
    apply Z.div_pos; lia.
Qed.

(** X2: on the data URL of a byte buffer the estimator never reports less
    than [round(len(bytes) / 1024)] and at most one kilobyte more. *)
Theorem estimator_overshoots_by_at_most_one (bs : list byte) :
  exists kb,
    calculateImageSize (Base64.dataURL bs) = Some kb /\
    estimateKB bs <= kb <= estimateKB bs + 1.
Proof.
  rewrite calculateImageSize_dataURL. eexists. split; [reflexivity|].
  rewrite payload_size. unfold estimateKB.
  change 1024%Q with (inject_Z (Zpos 1024)). rewrite Math_round_ratio.
  set (n := Z.of_nat (List.length bs)).
  assert (0 <= n) by (subst n; lia).
  change (2 * Zpos 1024) with 2048. change (Zpos 1024) with 1024.
  Z.div_mod_to_equations. lia.
Qed.

(** Rounding the padded length and the length itself to kilobytes. *)
Lemma padded_rounding (n : Z) :
  0 <= n ->
  (3 * (4 * ((n + 2) / 3)) + 2048) / 4096 = (2 * n + 1024) / 2048 <->
  ~ (n mod 1024 = 511 /\ n mod 3 <> 0 \/ n mod 1024 = 510 /\ n mod 3 = 1).
Proof.
  intros Hn.
  replace (3 * (4 * ((n + 2) / 3)) + 2048) with (4 * (3 * ((n + 2) / 3) + 512))
    by lia.
  change 4096 with (4 * 1024).
  rewrite Z.div_mul_cancel_l by lia.
  replace (2 * n + 1024) with (2 * (n + 512)) by lia.
  change 2048 with (2 * 1024).
  rewrite Z.div_mul_cancel_l by lia.
  assert (P : exists pad, 3 * ((n + 2) / 3) = n + pad /\ 0 <= pad <= 2 /\
            (pad = 0 <-> n mod 3 = 0) /\ (pad = 2 <-> n mod 3 = 1)).
  { exists (3 * ((n + 2) / 3) - n). Z.div_mod_to_equations. lia. }
  destruct P as (pad & -> & Hp & H0 & H2).
  rewrite (Z.div_mod n 1024) at 1 2 by lia.
  pose proof (Z.mod_pos_bound n 1024 ltac:(lia)) as Hr.
  set (r := n mod 1024) in *. set (q := n / 1024).
  replace (1024 * q + r + pad + 512) with (r + pad + 512 + q * 1024) by lia.
  replace (1024 * q + r + 512) with (r + 512 + q * 1024) by lia.
  rewrite !Z.div_add by lia.
  assert (C : r + pad < 512 \/ 512 <= r + pad /\ r < 512 \/ 512 <= r) by lia.
  destruct C as [C | [C | C]].
  - rewrite (Z.div_small (r + pad + 512)), (Z.div_small (r + 512)) by lia. lia.
  - rewrite (Z.div_small (r + 512)) by lia.
    replace ((r + pad + 512) / 1024) with 1
      by (apply Z.div_unique with (r + pad - 512); lia).
    lia.
  - replace ((r + pad + 512) / 1024) with 1
      by (apply Z.div_unique with (r + pad - 512); lia).
    replace ((r + 512) / 1024) with 1
      by (apply Z.div_unique with (r - 512); lia).
    lia.
Qed.

(** X21: on the data URL of a byte buffer of [n] bytes the estimator
    returns [round(n / 1024)] except just below a rounding boundary, where
    the one or two padding characters of the base64 text carry it over:
    when [n mod 1024] is 511 and [n] is no multiple of three, or
    [n mod 1024] is 510 and [n mod 3] is 1. *)
Theorem estimator_is_exact_off_the_rounding_boundary (bs : list byte) :
  let n := Z.of_nat (List.length bs) in
  calculateImageSize (Base64.dataURL bs) = Some (estimateKB bs) <->
  ~ (n mod 1024 = 511 /\ n mod 3 <> 0 \/ n mod 1024 = 510 /\ n mod 3 = 1).
Proof.
  cbv zeta. rewrite calculateImageSize_dataURL, payload_size.
  unfold estimateKB.
  change 1024%Q with (inject_Z (Zpos 1024)). rewrite Math_round_ratio.
  set (n := Z.of_nat (List.length bs)).
  assert (Hn : 0 <= n) by (subst n; lia).
  change (2 * Zpos 1024) with 2048. change (Zpos 1024) with 1024.
  rewrite <- (padded_rounding n Hn).
  split; [now intros [= E] | now intros ->].
Qed.

(** ** The two dimension loops *)

Lemma at_quality_cons (q : float) (c : Canvas) (evs : list Event) :
  at_quality q evs -> at_quality q (Encode c q :: evs).
Proof. intros H. constructor; [now exists c | exact H]. Qed.

Lemma enlarge_events (b : Browser) (lo : Z) (fuel : nat) :
  forall (sf : float) (v : Vars) (w : World),
  exists evs,
    events (snd (enlarge b lo fuel sf v w)) = (events w ++ evs)%list /\
    at_quality F64.c_1_0 evs.
Proof.
  induction fuel as [|fuel IH]; intros sf v w; cbn [enlarge];
    destruct ((currentSize v <? lo) && _);
    try (exists []; unfold ret, starve; cbn [snd events];
         rewrite app_nil_r; split; [reflexivity|constructor]).
  rewrite encode_then_measure. cbv zeta.
  destruct (calculateImageSize _) as [kb|].
  - destruct (kb >=? lo).
    + eexists [_]. unfold ret. cbn [snd events]. split; [reflexivity|].
      apply at_quality_cons. constructor.
    + match goal with
      | |- context [enlarge b lo fuel ?sf' ?v' ?w'] =>
          destruct (IH sf' v' w') as (evs & E & Hq)
      end.
      eexists (_ :: evs). rewrite E. cbn [events]. rewrite <- app_assoc.
      split; [reflexivity|]. now apply at_quality_cons.
  - eexists [_]. cbn [snd events]. split; [reflexivity|].
    apply at_quality_cons. constructor.
Qed.

Lemma shrink_events (b : Browser) (hi iw ih : Z) (fuel : nat) :
  forall (sf : float) (v : Vars) (w : World),
  exists evs,
    events (snd (shrink b hi iw ih fuel sf v w)) = (events w ++ evs)%list /\
    at_quality F64.c_0_1 evs.
Proof.
  induction fuel as [|fuel IH]; intros sf v w; cbn [shrink];
    destruct ((currentSize v >? hi) && _);
    try (exists []; unfold ret, starve; cbn [snd events];
         rewrite app_nil_r; split; [reflexivity|constructor]).
  rewrite encode_then_measure. cbv zeta.
  destruct (calculateImageSize _) as [kb|].
  - destruct (kb <=? hi).
    + eexists [_]. unfold ret. cbn [snd events]. split; [reflexivity|].
      apply at_quality_cons. constructor.
    + match goal with
      | |- context [shrink b hi iw ih fuel ?sf' ?v' ?w'] =>
          destruct (IH sf' v' w') as (evs & E & Hq)
      end.
      eexists (_ :: evs). rewrite E. cbn [events]. rewrite <- app_assoc.
      split; [reflexivity|]. now apply at_quality_cons.
  - eexists [_]. cbn [snd events]. split; [reflexivity|].
    apply at_quality_cons. constructor.
Qed.

(** X3: the enlargement loop of lines 108-120, started at scale 1.0, ends
    with any fuel of ten or more after at most ten passes: ten additions of
    0.2 in double arithmetic give 3.0000000000000004.  Every pass encodes
    once, at quality 1.0, and the component state is not touched. *)
Theorem enlargement_makes_at_most_10_passes
    (b : Browser) (lo : Z) (fuel : nat) (v : Vars) (w : World) :
  (10 <= fuel)%nat ->
  exists o w' evs,
    enlarge b lo fuel F64.c_1_0 v w = (o, w') /\
    o <> Starved /\
    app w' = app w /\
    events w' = (events w ++ evs)%list /\
    (List.length evs <= 10)%nat /\
    at_quality F64.c_1_0 evs.
Proof.
  intros Hfuel.
  pose proof (enlarge_spec b lo 10 0 fuel v w eq_refl) as H.
  destruct (enlarge_events b lo fuel F64.c_1_0 v w) as (evs' & E' & Hq).
  change (enlarge_scale 0) with F64.c_1_0 in H.
  destruct (enlarge b lo fuel F64.c_1_0 v w) as [o w'].
  destruct H as (evs & Ha & He & Hl & _ & Ho). cbn [fst snd] in *.
  assert (evs' = evs) as -> by (rewrite He in E'; now apply app_inv_head in E').
  exists o, w', evs. repeat split; auto.
  intros ->. lia.
Qed.

(** X4: the forced reduction of lines 190-208, started at scale 0.9, ends
    with any fuel of nine or more after at most nine passes, each encoding
    once at quality 0.1, and does not touch the component state. *)
Theorem forced_shrink_makes_at_most_9_passes
    (b : Browser) (hi iw ih : Z) (fuel : nat) (v : Vars) (w : World) :
  (9 <= fuel)%nat ->
  exists o w' evs,
    shrink b hi iw ih fuel F64.c_0_9 v w = (o, w') /\
    o <> Starved /\
    app w' = app w /\
    events w' = (events w ++ evs)%list /\
    (List.length evs <= 9)%nat /\
    at_quality F64.c_0_1 evs.
Proof.
  intros Hfuel.
  pose proof (shrink_spec b hi iw ih 9 0 fuel v w eq_refl) as H.
  destruct (shrink_events b hi iw ih fuel F64.c_0_9 v w) as (evs' & E' & Hq).
  change (shrink_scale 0) with F64.c_0_9 in H.
  destruct (shrink b hi iw ih fuel F64.c_0_9 v w) as [o w'].
  destruct H as (evs & Ha & He & Hl & _ & Ho). cbn [fst snd] in *.
  assert (evs' = evs) as -> by (rewrite He in E'; now apply app_inv_head in E').
  exists o, w', evs. repeat split; auto.
  intros ->. lia.
Qed.

Lemma enlargement_makes_at_most_10_passes_witness :
  let b := synthetic 100 100 by_area in
  let w := {| app := uploaded 50 60; events := [] |} in
  exists o w' evs,
    enlarge b 50 10 F64.c_1_0 (vars0 100 100) w = (o, w') /\
    o <> Starved /\
    app w' = app w /\
    events w' = (events w ++ evs)%list /\
    (List.length evs <= 10)%nat /\
    at_quality F64.c_1_0 evs.
Proof.
  cbv zeta.
  apply (enlargement_makes_at_most_10_passes
           (synthetic 100 100 by_area) 50 10 (vars0 100 100)).
  lia.
Defined.

(** An encoder that cannot get below 3 KB, after a binary search that ended
    at 3 KB above a maximum of 2 KB: all nine passes are made. *)
Lemma forced_shrink_makes_at_most_9_passes_witness :
  let b := synthetic 100 100 incompressible in
  let w := {| app := uploaded 1 2; events := [] |} in
  let v := {| width := 100; height := 100; quality := F64.c_0_3;
              currentSize := 3;
              dataUrl := toDataURL b (canvas0 100 100) F64.c_0_3;
              attempts := 20; canvas := canvas0 100 100 |} in
  List.length (events (snd (shrink b 2 100 100 9 F64.c_0_9 v w))) = 9%nat /\
  exists o w' evs,
    shrink b 2 100 100 9 F64.c_0_9 v w = (o, w') /\
    o <> Starved /\
    app w' = app w /\
    events w' = (events w ++ evs)%list /\
    (List.length evs <= 9)%nat /\
    at_quality F64.c_0_1 evs.
Proof.
  cbv zeta. split; [vm_compute; reflexivity|].
  apply (forced_shrink_makes_at_most_9_passes
           (synthetic 100 100 incompressible) 2 100 100 9).
  lia.
Defined.

(** ** Every run *)

(** The ways a run can go. *)
Lemma run_cases (P : Outcome unit * World -> Prop) (fuel : nat)
    (b : Browser) (st : AppState) :
  (forall msg,
     P (Returned, {| app := setError (Some msg) st; events := [] |})) ->
  (forall src, preview st = Some src -> load_image b src = None ->
     P (Pending, {| app := entered st; events := [Decode src] |})) ->
  (forall f src iw ih,
     image st = Some f -> preview st = Some src ->
     truthy (preview st) = true -> minSize st < maxSize st ->
     load_image b src = Some (iw, ih) ->
     P (match
          search b (minSize st) (maxSize st) iw ih fuel
            {| app := entered st; events := [Decode src] |}
        with
        | (Normal _, w') => (Normal tt, finished (app w') (events w'))
        | (Returned, w') => (Returned, finished (app w') (events w'))
        | (Thrown msg, w') =>
            (Normal tt,
             finished
               (setError (Some ("Error processing image: " ++ msg)) (app w'))
               (events w'))
        | (Pending, w') => (Pending, w')
        | (Starved, w') => (Starved, w')
        end)) ->
  P (run fuel b st).
Proof.
  intros Hrej Hpend Hacc.
  destruct (image st) as [f|] eqn:Hi.
  2:{ destruct (run_rejected fuel b st) as (msg & ->); auto. }
  destruct (truthy (preview st)) eqn:Ht.
  2:{ destruct (run_rejected fuel b st) as (msg & ->); auto. }
  destruct (Z_lt_ge_dec (minSize st) (maxSize st)) as [Hr|Hr].
  2:{ destruct (run_rejected fuel b st) as (msg & ->); auto. }
  destruct (preview st) as [src|] eqn:Hp; [|discriminate Ht].
  assert (Hp' : truthy (preview st) = true) by (now rewrite Hp).
  destruct (load_image b src) as [[iw ih]|] eqn:Hl.
  - rewrite (run_accepted fuel b st f src iw ih Hi Hp Hp' Hr Hl).
    apply (Hacc f src iw ih); auto.
  - replace (run fuel b st)
      with (@Pending unit, {| app := entered st; events := [Decode src] |}).
    + now apply Hpend.
    + unfold run, processImage. cbn [app]. rewrite Hi, Hp, Ht.
      destruct (Z.geb_spec (minSize st) (maxSize st)); [lia|].
      unfold bind, setState, try_catch_finally, emit, await.
      cbn [app events]. rewrite Hl. reflexivity.
Qed.

Lemma same_inputs_reported (lo hi : Z) (d : string) (kb : Z) (st : AppState) :
  same_inputs st (reported lo hi d kb st).
Proof.
  unfold reported. destruct (kb <? lo); [|destruct (kb >? hi)];
    repeat split.
Qed.

(** X6: whatever a call of [processImage] does, it leaves the uploaded
    file, the preview and the two bounds as they were. *)
Theorem processImage_keeps_its_inputs
    (fuel : nat) (b : Browser) (st : AppState) :
  same_inputs st (app (snd (run fuel b st))).
Proof.
  apply (run_cases (fun r => same_inputs st (app (snd r)))).
  - intros msg. repeat split.
  - intros src _ _. repeat split.
  - intros f src iw ih Hi Hp Ht Hr Hl.
    set (w0 := {| app := entered st; events := [Decode src] |}).
    destruct (has_context b) eqn:Hctx.
    2:{ rewrite search_without_context by assumption. repeat split. }
    pose proof (search_spec b (minSize st) (maxSize st) iw ih fuel w0 Hctx Hr)
      as (evs & He & _ & _ & Ho).
    destruct (search b (minSize st) (maxSize st) iw ih fuel w0)
      as [[u | | msg | |] w']; cbn [fst snd finished app] in *.
    + destruct Ho as (d & kb & _ & _ & -> & _).
      destruct (same_inputs_reported (minSize st) (maxSize st) d kb (app w0))
        as (H1 & H2 & H3 & H4).
      repeat split; cbn [setLoading image preview minSize maxSize];
        assumption.
    + destruct Ho as (d & kb & _ & _ & _ & ->). repeat split.
    + destruct Ho as [-> _]. repeat split.
    + contradiction.
    + destruct Ho as [-> _]. repeat split.
Qed.

Lemma run_pending (fuel : nat) (b : Browser) (st : AppState) (f : File)
    (src : string) :
  image st = Some f ->
  preview st = Some src ->
  truthy (preview st) = true ->
  minSize st < maxSize st ->
  load_image b src = None ->
  run fuel b st =
  (Pending, {| app := entered st; events := [Decode src] |}).
Proof.
  intros Hi Hp Ht Hr Hl. unfold run, processImage. cbn [app].
  rewrite Hi, Ht, Hp.
  destruct (Z.geb_spec (minSize st) (maxSize st)); [lia|].
  unfold bind, setState, try_catch_finally, emit, await.
  cbn [app events]. rewrite Hl. reflexivity.
Qed.

(** X7: when the preview never fires [onload], an accepted call never comes
    back: nothing is encoded, no message is set, the stored result is
    untouched and [loading] stays true. *)
Theorem unloadable_preview_leaves_the_call_pending
    (fuel : nat) (b : Browser) (st : AppState) (f : File) (src : string) :
  image st = Some f ->
  preview st = Some src ->
  truthy (preview st) = true ->
  minSize st < maxSize st ->
  load_image b src = None ->
  exists w',
    run fuel b st = (Pending, w') /\
    events w' = [Decode src] /\
    loading (app w') = true /\
    error (app w') = None /\
    processedImage (app w') = processedImage st /\
    processedSize (app w') = processedSize st.
Proof.
  intros Hi Hp Ht Hr Hl.
  rewrite (run_pending fuel b st f src Hi Hp Ht Hr Hl).
  eexists. split; [reflexivity|]. repeat split.
Qed.

Lemma unloadable_preview_leaves_the_call_pending_witness :
  exists w',
    run 20 unloadable (uploaded 50 100) = (Pending, w') /\
    events w' = [Decode photo_url] /\
    loading (app w') = true /\
    error (app w') = None /\
    processedImage (app w') = processedImage (uploaded 50 100) /\
    processedSize (app w') = processedSize (uploaded 50 100).
Proof.
  apply (unloadable_preview_leaves_the_call_pending
           20 unloadable (uploaded 50 100) photo photo_url);
    first [reflexivity | cbn; lia].
Defined.

(** X8: when the canvas hands out no 2d context, an accepted call ends with
    the message of line 94 behind the prefix of line 232; nothing is
    encoded, the stored result is untouched and [loading] is false again. *)
Theorem missing_context_is_reported
    (fuel : nat) (b : Browser) (st : AppState) (f : File) (src : string)
    (iw ih : Z) :
  image st = Some f ->
  preview st = Some src ->
  truthy (preview st) = true ->
  minSize st < maxSize st ->
  load_image b src = Some (iw, ih) ->
  has_context b = false ->
  exists w',
    run fuel b st = (Normal tt, w') /\
    events w' = [Decode src] /\
    error (app w') =
      Some "Error processing image: Could not get canvas context" /\
    loading (app w') = false /\
    processedImage (app w') = processedImage st /\
    processedSize (app w') = processedSize st.
Proof.
  intros Hi Hp Ht Hr Hl Hctx.
  rewrite (run_accepted fuel b st f src iw ih Hi Hp Ht Hr Hl).
  rewrite search_without_context by assumption.
  eexists. split; [reflexivity|]. repeat split.
Qed.

Lemma missing_context_is_reported_witness :
  exists w',
    run 20 contextless (uploaded 50 100) = (Normal tt, w') /\
    events w' = [Decode photo_url] /\
    error (app w') =
      Some "Error processing image: Could not get canvas context" /\
    loading (app w') = false /\
    processedImage (app w') = processedImage (uploaded 50 100) /\
    processedSize (app w') = processedSize (uploaded 50 100).
Proof.
  apply (missing_context_is_reported
           20 contextless (uploaded 50 100) photo photo_url 100 100);
    first [reflexivity | cbn; lia].
Defined.

(** X9: when the encoding of the original comes back as text without a
    comma, the [TypeError] of [calculateImageSize] is caught: the call ends
    after that one encoding with the browser's message behind the prefix of
    line 232, the stored result untouched and [loading] false. *)
Theorem malformed_data_url_is_reported
    (fuel : nat) (b : Browser) (st : AppState) (f : File) (src : string)
    (iw ih : Z) :
  image st = Some f ->
  preview st = Some src ->
  truthy (preview st) = true ->
  minSize st < maxSize st ->
  load_image b src = Some (iw, ih) ->
  has_context b = true ->
  occurs "," (toDataURL b (canvas0 iw ih) F64.c_1_0) = false ->
  exists w',
    run fuel b st = (Normal tt, w') /\
    events w' = [Decode src; Encode (canvas0 iw ih) F64.c_1_0] /\
    error (app w') =
      Some ("Error processing image: " ++ type_error_message b) /\
    loading (app w') = false /\
    processedImage (app w') = processedImage st /\
    processedSize (app w') = processedSize st.
Proof.
  intros Hi Hp Ht Hr Hl Hctx Hno.
  rewrite (run_accepted fuel b st f src iw ih Hi Hp Ht Hr Hl).
  unfold search, bind. rewrite baseline_run, Hctx. cbv zeta.
  unfold calculateImageSize. rewrite (split_without_sep _ _ Hno).
  cbn [nth_error]. eexists. split; [reflexivity|]. repeat split.
Qed.

Lemma malformed_data_url_is_reported_witness :
  exists w',
    run 20 commaless (uploaded 50 100) = (Normal tt, w') /\
    events w' = [Decode photo_url; Encode (canvas0 100 100) F64.c_1_0] /\
    error (app w') =
      Some ("Error processing image: " ++ type_error_message commaless) /\
    loading (app w') = false /\
    processedImage (app w') = processedImage (uploaded 50 100) /\
    processedSize (app w') = processedSize (uploaded 50 100).
Proof.
  apply (malformed_data_url_is_reported
           20 commaless (uploaded 50 100) photo photo_url 100 100);
    first [reflexivity | cbn; lia].
Defined.

(** The encodings of one search: the original, then at most ten
    enlargements or at most twenty-nine passes of stage 2. *)
Lemma search_encodings (b : Browser) (lo hi iw ih : Z) (fuel : nat)
    (w : World) :
  has_context b = true -> lo < hi ->
  exists evs,
    events (snd (search b lo hi iw ih fuel w)) = (events w ++ evs)%list /\
    forallb is_encode evs = true /\
    (List.length evs <= 30)%nat.
Proof.
  intros Hctx Hlh. unfold search, bind. rewrite baseline_run, Hctx. cbv zeta.
  set (d0 := toDataURL b (canvas0 iw ih) F64.c_1_0).
  set (e0 := Encode (canvas0 iw ih) F64.c_1_0).
  destruct (calculateImageSize d0) as [kb0|] eqn:E0.
  2:{ exists [e0]. cbn [fst snd app events List.length forallb is_encode e0].
      repeat split; auto. lia. }
  set (w1 := {| app := app w; events := events w ++ [e0] |}).
  pose proof (stage1_spec b lo fuel kb0 (vars0 iw ih) w1 eq_refl) as H1.
  destruct (stage1 b lo fuel kb0 (vars0 iw ih) w1) as [o1 w2].
  destruct H1 as (evs1 & He1 & Hl1 & Hf1 & Ho1). cbn [fst snd] in *.
  assert (Hev : forall l, ((events w ++ [e0]) ++ l = events w ++ e0 :: l)%list)
    by (intros l; now rewrite <- app_assoc).
  subst w1. cbn [app events] in *. rewrite Hev in He1.
  destruct o1 as [v1 | | msg | |]; try contradiction;
    try (exists (e0 :: evs1); cbn [fst snd List.length forallb is_encode e0];
         repeat split; auto; lia).
  destruct Ho1 as [Ha1 [(Hge & -> & ->) | Hlt]].
  - pose proof (stage2_spec b lo hi iw ih fuel d0 kb0 (vars0 iw ih) w2 eq_refl)
      as H2.
    destruct (stage2 b lo hi iw ih fuel d0 kb0 (vars0 iw ih) w2) as [o2 w3].
    destruct H2 as (evs2 & Ha2 & He2 & Hl2 & Hf2 & Ho2). cbn [fst snd] in *.
    exists (e0 :: evs2).
    assert (E : events w3 = (events w ++ e0 :: evs2)%list).
    { rewrite He2, He1, <- app_assoc. reflexivity. }
    destruct o2 as [v2 | | msg | |]; try contradiction;
      try rewrite report_run;
      cbn [fst snd events List.length forallb is_encode e0];
      repeat split; auto; lia.
  - unfold stage2. destruct (Z.gtb_spec kb0 hi); [lia|].
    unfold ret. rewrite report_run.
    exists (e0 :: evs1). cbn [fst snd events List.length forallb is_encode e0].
    repeat split; auto. lia.
Qed.

(** X10: a call of [processImage] either asks the browser nothing, or loads
    the preview once and then makes at most thirty encodings and nothing
    else. *)
Theorem processImage_makes_at_most_30_encodings
    (fuel : nat) (b : Browser) (st : AppState) :
  let evs := events (snd (run fuel b st)) in
  evs = [] \/
  exists src encodings,
    preview st = Some src /\
    evs = Decode src :: encodings /\
    forallb is_encode encodings = true /\
    (List.length encodings <= 30)%nat.
Proof.
  cbv zeta.
  apply (run_cases
           (fun r =>
              events (snd r) = [] \/
              exists src encodings,
                preview st = Some src /\
                events (snd r) = Decode src :: encodings /\
                forallb is_encode encodings = true /\
                (List.length encodings <= 30)%nat)).
  - intros msg. now left.
  - intros src Hp _. right. exists src, []. repeat split; auto. cbn. lia.
  - intros f src iw ih Hi Hp Ht Hr Hl. right. exists src.
    set (w0 := {| app := entered st; events := [Decode src] |}).
    destruct (has_context b) eqn:Hctx.
    2:{ rewrite search_without_context by assumption.
        exists []. repeat split; auto. cbn. lia. }
    destruct (search_encodings b (minSize st) (maxSize st) iw ih fuel w0
                Hctx Hr) as (evs & He & Hf & Hlen).
    exists evs.
    destruct (search b (minSize st) (maxSize st) iw ih fuel w0)
      as [[u | | msg | |] w']; cbn [fst snd finished events] in *;
      rewrite He; repeat split; auto.
Qed.

(** Whatever the browser is asked first is the preview. *)
Lemma run_starts_with_decode (fuel : nat) (b : Browser) (st : AppState) :
  events (snd (run fuel b st)) = [] \/
  exists src evs,
    preview st = Some src /\ events (snd (run fuel b st)) = Decode src :: evs.
Proof.
  apply (run_cases
           (fun r =>
              events (snd r) = [] \/
              exists src evs,
                preview st = Some src /\ events (snd r) = Decode src :: evs)).
  - intros msg. now left.
  - intros src Hp _. right. exists src, []. auto.
  - intros f src iw ih Hi Hp Ht Hr Hl. right. exists src.
    set (w0 := {| app := entered st; events := [Decode src] |}).
    destruct (has_context b) eqn:Hctx.
    2:{ rewrite search_without_context by assumption. exists []. auto. }
    pose proof (search_spec b (minSize st) (maxSize st) iw ih fuel w0 Hctx Hr)
      as (evs & He & _).
    eexists.
    destruct (search b (minSize st) (maxSize st) iw ih fuel w0)
      as [[u | | msg | |] w']; cbn [fst snd finished events] in *;
      rewrite He; split; auto; reflexivity.
Qed.

(** ** The undersized original and the bracket, once more *)

Lemma undersized_original_is_reported_below_minimum_witness :
  let b := synthetic 100 100 by_area in
  let st := uploaded 4 8 in
  exists w' kb,
    (run 20 b st = (Returned, w') \/
     run 20 b st = (Normal tt, w') /\
     processedImage (app w') = Some (toDataURL b (canvas0 100 100) F64.c_1_0) /\
     kb = 3) /\
    processedSize (app w') = Some kb /\
    kb < minSize st /\
    error (app w') = Some (below_message (minSize st) kb).
Proof.
  cbv zeta.
  apply (undersized_original_is_reported_below_minimum
           20 (synthetic 100 100 by_area) (uploaded 4 8) photo photo_url
           100 100 3);
    first [reflexivity | apply synthetic_well_formed
          | vm_compute; reflexivity | cbn; lia].
Defined.

(** X11: at every loop head the binary search can reach with a pass still
    to make, [minQuality <= quality <= maxQuality], whatever the encoder
    answers. *)
Theorem bisection_quality_stays_within_bounds
    (b : Browser) (lo hi : Z) (v0 : Vars) (s : Bracket * Vars) :
  attempts v0 = 0 ->
  reached b lo hi v0 s ->
  attempts (snd s) < maxAttempts ->
  (F64.to_Q (minQuality (fst s)) <= F64.to_Q (quality (snd s)))%Q /\
  (F64.to_Q (quality (snd s)) <= F64.to_Q (maxQuality (fst s)))%Q.
Proof.
  intros Hv Hs Hlt.
  destruct (reached_abstract b lo hi v0 s Hv Hs) as (path & Ea & El).
  destruct all_paths_explored as [Hall Hres].
  assert (Hn : within (q_run path q_init) = true).
  { apply (explore_sound 20 Hres); [exact Hall | cbn; lia |].
    unfold maxAttempts in Hlt. lia. }
  rewrite <- Ea in Hn. unfold within, abstract in Hn.
  cbn [q_lo q_hi q_cur] in Hn.
  apply andb_true_iff in Hn as [H1 H2].
  split; now apply Qle_bool_iff.
Qed.

Lemma bisection_quality_stays_within_bounds_witness :
  let s := bisect_init (vars0 100 100) in
  (F64.to_Q (minQuality (fst s)) <= F64.to_Q (quality (snd s)))%Q /\
  (F64.to_Q (quality (snd s)) <= F64.to_Q (maxQuality (fst s)))%Q.
Proof.
  cbv zeta.
  apply (bisection_quality_stays_within_bounds
           (synthetic 100 100 incompressible) 1 2 (vars0 100 100)
           (bisect_init (vars0 100 100)) eq_refl (reached_init _ _ _ _)).
  reflexivity.
Defined.

(** ** The other handlers *)

(** [processImage] overwrites the message it finds. *)
Lemma run_ignores_error (fuel : nat) (b : Browser) (st : AppState)
    (e : option string) :
  run fuel b (setError e st) = run fuel b st.
Proof.
  unfold run, processImage.
  cbn [app image preview minSize maxSize setError].
  destruct (image st), (truthy (preview st)), (preview st); reflexivity.
Qed.

(** X12: choosing a file whose type does not start with "image/" hands
    nothing to the reader and changes the message only; a call of
    [processImage] afterwards does what it would have done before. *)
Theorem non_image_file_changes_the_message_only
    (f : File) (rest : list File) (st : AppState) :
  is_image f = false ->
  handleImageUpload (f :: rest) st =
    (setError (Some "Please upload an image file") st, None) /\
  forall fuel b,
    run fuel b (fst (handleImageUpload (f :: rest) st)) = run fuel b st.
Proof.
  intros H. unfold handleImageUpload. rewrite H. cbn [negb fst].
  split; [reflexivity|].
  intros fuel b. apply (run_ignores_error fuel b st).
Qed.

Lemma non_image_file_changes_the_message_only_witness :
  let f := {| file_name := "notes.pdf"; file_type := "application/pdf" |} in
  handleImageUpload [f] (uploaded 50 100) =
    (setError (Some "Please upload an image file") (uploaded 50 100), None) /\
  forall fuel b,
    run fuel b (fst (handleImageUpload [f] (uploaded 50 100))) =
    run fuel b (uploaded 50 100).
Proof.
  cbv zeta.
  apply (non_image_file_changes_the_message_only
           {| file_name := "notes.pdf"; file_type := "application/pdf" |}
           [] (uploaded 50 100)).
  reflexivity.
Defined.

(** X13: once an image file has been chosen and read, the previous result
    is gone: nothing is stored, nothing can be downloaded, the success
    message is not rendered; the bounds and [loading] are as before, and a
    call of [processImage] that asks the browser anything starts by loading
    the new data URL. *)
Theorem new_upload_clears_the_result
    (f : File) (rest : list File) (result : string) (st : AppState) :
  is_image f = true ->
  let st' := reader_onload result (fst (handleImageUpload (f :: rest) st)) in
  image st' = Some f /\ preview st' = Some result /\
  processedImage st' = None /\ processedSize st' = None /\
  error st' = None /\
  downloadImage st' = None /\ success_shown st' = false /\
  minSize st' = minSize st /\ maxSize st' = maxSize st /\
  loading st' = loading st /\
  forall fuel b,
    events (snd (run fuel b st')) = [] \/
    exists evs, events (snd (run fuel b st')) = Decode result :: evs.
Proof.
  intros H. cbv zeta. unfold handleImageUpload. rewrite H. cbn [negb fst].
  repeat split.
  intros fuel b.
  match goal with |- context [run fuel b ?s] => set (st' := s) end.
  destruct (run_starts_with_decode fuel b st')
    as [E | (src & evs & Hp & E)]; [now left|].
  right. exists evs. rewrite E. now injection Hp as <-.
Qed.

Lemma new_upload_clears_the_result_witness :
  let st := uploaded 50 100 in
  let st' := reader_onload photo_url (fst (handleImageUpload [photo] st)) in
  image st' = Some photo /\ preview st' = Some photo_url /\
  processedImage st' = None /\ processedSize st' = None /\
  error st' = None /\
  downloadImage st' = None /\ success_shown st' = false /\
  minSize st' = minSize st /\ maxSize st' = maxSize st /\
  loading st' = loading st /\
  forall fuel b,
    events (snd (run fuel b st')) = [] \/
    exists evs, events (snd (run fuel b st')) = Decode photo_url :: evs.
Proof.
  cbv zeta.
  apply (new_upload_clears_the_result photo [] photo_url (uploaded 50 100)).
  reflexivity.
Defined.

(** X14: between the choice of a first image and the end of its reading
    the Process button is enabled, and pressing it is refused with the
    message of line 59 before the browser is asked anything. *)
Theorem processing_before_the_preview_is_refused
    (f : File) (rest : list File) (st : AppState) (fuel : nat) (b : Browser) :
  is_image f = true ->
  truthy (preview st) = false ->
  loading st = false ->
  let st' := fst (handleImageUpload (f :: rest) st) in
  process_disabled st' = false /\
  run fuel b st' =
  (Returned,
   {| app := setError (Some "Please upload an image first") st';
      events := [] |}).
Proof.
  intros H Hp Hl. cbv zeta. unfold handleImageUpload. rewrite H.
  cbn [negb fst]. split.
  - unfold process_disabled. cbn. exact Hl.
  - unfold run, processImage.
    cbn [app image preview setImage setError]. rewrite Hp.
    destruct (preview st); reflexivity.
Qed.

Lemma processing_before_the_preview_is_refused_witness :
  let st := resetForm (uploaded 50 100) in
  let st' := fst (handleImageUpload [photo] st) in
  process_disabled st' = false /\
  run 20 (synthetic 100 100 by_area) st' =
  (Returned,
   {| app := setError (Some "Please upload an image first") st';
      events := [] |}).
Proof.
  cbv zeta.
  apply (processing_before_the_preview_is_refused
           photo [] (resetForm (uploaded 50 100)) 20
           (synthetic 100 100 by_area));
    reflexivity.
Defined.

(** X15: after [resetForm] nothing is stored and nothing can be downloaded,
    the Process button is disabled, and a call of [processImage] is refused
    with the message of line 59 before the browser is asked anything; the
    two bounds and [loading] are not reset. *)
Theorem reset_empties_the_form
    (st : AppState) (fuel : nat) (b : Browser) :
  let st' := resetForm st in
  image st' = None /\ preview st' = None /\
  processedImage st' = None /\ processedSize st' = None /\
  error st' = None /\
  downloadImage st' = None /\ process_disabled st' = true /\
  minSize st' = minSize st /\ maxSize st' = maxSize st /\
  loading st' = loading st /\
  run fuel b st' =
  (Returned,
   {| app := setError (Some "Please upload an image first") st';
      events := [] |}).
Proof.
  cbv zeta. repeat split.
Qed.

Lemma act_keeps_loading (st : AppState) (a : Action) :
  loading (act st a) = loading st.
Proof.
  destruct a as [[|f rest] | | | |]; try reflexivity.
  cbn [act]. unfold handleImageUpload.
  destruct (negb (is_image f)); reflexivity.
Qed.

Lemma acts_keep_loading (actions : list Action) :
  forall st, loading (fold_left act actions st) = loading st.
Proof.
  induction actions as [|a actions IH]; intros st; [reflexivity|].
  cbn [fold_left]. now rewrite IH, act_keeps_loading.
Qed.

(** X16: after a call that stays pending because the preview never loads,
    the Process button stays disabled whatever files are chosen or read,
    whatever is typed into the two size inputs and however often the form
    is reset: none of these handlers writes [loading]. *)
Theorem pending_call_disables_processing_for_good
    (fuel : nat) (b : Browser) (st : AppState) (f : File) (src : string)
    (actions : list Action) :
  image st = Some f ->
  preview st = Some src ->
  truthy (preview st) = true ->
  minSize st < maxSize st ->
  load_image b src = None ->
  process_disabled (fold_left act actions (app (snd (run fuel b st)))) = true.
Proof.
  intros Hi Hp Ht Hr Hl.
  rewrite (run_pending fuel b st f src Hi Hp Ht Hr Hl). cbn [snd app].
  unfold process_disabled. rewrite acts_keep_loading.
  destruct (image (fold_left act actions _)); reflexivity.
Qed.

Lemma pending_call_disables_processing_for_good_witness :
  process_disabled
    (fold_left act [ClickReset; ChooseFiles [photo]; PreviewRead photo_url]
       (app (snd (run 20 unloadable (uploaded 50 100))))) = true.
Proof.
  apply (pending_call_disables_processing_for_good
           20 unloadable (uploaded 50 100) photo photo_url
           [ClickReset; ChooseFiles [photo]; PreviewRead photo_url]);
    first [reflexivity | cbn; lia].
Defined.

(** What an accepted call stores when the browser behaves. *)
Lemma accepted_run_stores_a_result
    (fuel : nat) (b : Browser) (st : AppState) (f : File) (src : string)
    (iw ih : Z) :
  image st = Some f ->
  preview st = Some src ->
  truthy (preview st) = true ->
  minSize st < maxSize st ->
  load_image b src = Some (iw, ih) ->
  has_context b = true ->
  well_formed b ->
  (20 <= fuel)%nat ->
  exists d kb,
    processedImage (app (snd (run fuel b st))) = Some d /\
    processedSize (app (snd (run fuel b st))) = Some kb /\
    calculateImageSize d = Some kb /\
    image (app (snd (run fuel b st))) = Some f.
Proof.
  intros Hi Hp Ht Hr Hl Hctx Hwf Hfuel.
  rewrite (run_accepted fuel b st f src iw ih Hi Hp Ht Hr Hl).
  set (w0 := {| app := setError None (setLoading true st);
                events := [Decode src] |}).
  pose proof (search_spec b (minSize st) (maxSize st) iw ih fuel w0 Hctx Hr)
    as (evs & He & _ & _ & Ho).
  destruct (search b (minSize st) (maxSize st) iw ih fuel w0)
    as [[u | | msg | |] w']; cbn [fst snd] in *.
  - destruct Ho as (d & kb & Hm & _ & Ha & _).
    destruct (reported_fields (minSize st) (maxSize st) d kb (app w0))
      as (F1 & F2 & _).
    destruct (same_inputs_reported (minSize st) (maxSize st) d kb (app w0))
      as (F3 & _).
    exists d, kb.
    cbn [finished app setLoading processedImage processedSize image].
    rewrite Ha, F1, F2, F3. auto.
  - destruct Ho as (d & kb & Hm & _ & _ & Ha).
    exists d, kb.
    cbn [finished app setLoading processedImage processedSize image].
    rewrite Ha. auto.
  - destruct Ho as (_ & c & q & Hnone). now destruct (Hwf c q).
  - contradiction.
  - lia.
Qed.

Lemma measured_text_is_not_empty (d : string) (kb : Z) :
  calculateImageSize d = Some kb -> exists c rest, d = String c rest.
Proof.
  destruct d as [|c rest]; [discriminate | eauto].
Qed.

(** X17: after an accepted call on a browser that behaves,
    [downloadImage] offers exactly the stored data URL, whose measure is
    the stored size, under the name "resized-" followed by the name of the
    uploaded file ("image.jpg" when that name is empty). *)
Theorem download_offers_the_stored_result
    (fuel : nat) (b : Browser) (st : AppState) (f : File) (src : string)
    (iw ih : Z) :
  image st = Some f ->
  preview st = Some src ->
  truthy (preview st) = true ->
  minSize st < maxSize st ->
  load_image b src = Some (iw, ih) ->
  has_context b = true ->
  well_formed b ->
  (20 <= fuel)%nat ->
  exists d kb,
    downloadImage (app (snd (run fuel b st))) =
      Some (d, "resized-" ++ download_name (Some f)) /\
    processedSize (app (snd (run fuel b st))) = Some kb /\
    calculateImageSize d = Some kb.
Proof.
  intros Hi Hp Ht Hr Hl Hctx Hwf Hfuel.
  destruct (accepted_run_stores_a_result fuel b st f src iw ih
              Hi Hp Ht Hr Hl Hctx Hwf Hfuel) as (d & kb & H1 & H2 & H3 & H4).
  exists d, kb. repeat split; auto.
  unfold downloadImage. rewrite H1, H4.
  destruct (measured_text_is_not_empty d kb H3) as (c & rest & ->).
  reflexivity.
Qed.

(** X18: after an accepted call on a browser that behaves, the success
    message with its Download button is rendered exactly when the stored
    size is not 0 KB. *)
Theorem success_is_shown_unless_size_is_zero
    (fuel : nat) (b : Browser) (st : AppState) (f : File) (src : string)
    (iw ih : Z) :
  image st = Some f ->
  preview st = Some src ->
  truthy (preview st) = true ->
  minSize st < maxSize st ->
  load_image b src = Some (iw, ih) ->
  has_context b = true ->
  well_formed b ->
  (20 <= fuel)%nat ->
  exists kb,
    processedSize (app (snd (run fuel b st))) = Some kb /\
    success_shown (app (snd (run fuel b st))) = negb (kb =? 0).
Proof.
  intros Hi Hp Ht Hr Hl Hctx Hwf Hfuel.
  destruct (accepted_run_stores_a_result fuel b st f src iw ih
              Hi Hp Ht Hr Hl Hctx Hwf Hfuel) as (d & kb & H1 & H2 & H3 & _).
  exists kb. split; [assumption|].
  unfold success_shown. rewrite H1, H2.
  destruct (measured_text_is_not_empty d kb H3) as (c & rest & ->).
  reflexivity.
Qed.

Lemma download_offers_the_stored_result_witness :
  let b := synthetic 100 100 by_area in
  let st := uploaded 2 4 in
  exists d kb,
    downloadImage (app (snd (run 20 b st))) =
      Some (d, "resized-" ++ download_name (Some photo)) /\
    processedSize (app (snd (run 20 b st))) = Some kb /\
    calculateImageSize d = Some kb.
Proof.
  cbv zeta.
  apply (download_offers_the_stored_result
           20 (synthetic 100 100 by_area) (uploaded 2 4) photo photo_url
           100 100);
    first [reflexivity | apply synthetic_well_formed | cbn; lia].
Defined.

Lemma success_is_shown_unless_size_is_zero_witness :
  let b := synthetic 100 100 by_area in
  let st := uploaded 2 4 in
  exists kb,
    processedSize (app (snd (run 20 b st))) = Some kb /\
    success_shown (app (snd (run 20 b st))) = negb (kb =? 0).
Proof.
  cbv zeta.
  apply (success_is_shown_unless_size_is_zero
           20 (synthetic 100 100 by_area) (uploaded 2 4) photo photo_url
           100 100);
    first [reflexivity | apply synthetic_well_formed | cbn; lia].
Defined.

(** ** Calls on any browser *)

(** X19: on any browser, a call that passes the guards and whose image
    loads comes to its end with [loading] false again; and when it leaves
    no message, it has stored a result whose size lies within the range. *)
Theorem loaded_call_ends_and_silence_means_success
    (fuel : nat) (b : Browser) (st : AppState) (f : File) (src : string)
    (iw ih : Z) :
  image st = Some f ->
  preview st = Some src ->
  truthy (preview st) = true ->
  minSize st < maxSize st ->
  load_image b src = Some (iw, ih) ->
  (20 <= fuel)%nat ->
  exists w',
    (run fuel b st = (Normal tt, w') \/ run fuel b st = (Returned, w')) /\
    loading (app w') = false /\
    (error (app w') = None ->
     exists d kb,
       processedImage (app w') = Some d /\
       processedSize (app w') = Some kb /\
       calculateImageSize d = Some kb /\
       minSize st <= kb <= maxSize st).
Proof.
  intros Hi Hp Ht Hr Hl Hfuel.
  rewrite (run_accepted fuel b st f src iw ih Hi Hp Ht Hr Hl).
  set (w0 := {| app := setError None (setLoading true st);
                events := [Decode src] |}).
  destruct (has_context b) eqn:Hctx.
  2:{ rewrite search_without_context by assumption.
      eexists. split; [left; reflexivity|]. split; [reflexivity|].
      discriminate. }
  pose proof (search_spec b (minSize st) (maxSize st) iw ih fuel w0 Hctx Hr)
    as (evs & He & _ & _ & Ho).
  destruct (search b (minSize st) (maxSize st) iw ih fuel w0)
    as [[u | | msg | |] w']; cbn [fst snd] in *.
  - destruct Ho as (d & kb & Hm & _ & Ha & _).
    destruct (reported_fields (minSize st) (maxSize st) d kb (app w0))
      as (F1 & F2 & F3).
    eexists. split; [left; reflexivity|]. split; [reflexivity|].
    cbn [finished app setLoading processedImage processedSize error].
    rewrite Ha, F1, F2, (F3 eq_refl). unfold status_message.
    destruct (Z.ltb_spec kb (minSize st)); [discriminate|].
    destruct (Z.gtb_spec kb (maxSize st)); [discriminate|].
    intros _. exists d, kb. repeat split; auto; lia.
  - destruct Ho as (d & kb & Hm & _ & Hlow & Ha).
    eexists. split; [right; reflexivity|]. split; [reflexivity|].
    cbn [finished app setLoading error]. rewrite Ha. discriminate.
  - eexists. split; [left; reflexivity|]. split; [reflexivity|].
    discriminate.
  - contradiction.
  - lia.
Qed.

(** An original of 29 KB for the range 10 to 20 KB, on an encoder that gives
    3 KB at quality 0.7 and 12 KB on the next pass: the binary search makes
    two passes, and the call ends without a message. *)
Lemma loaded_call_ends_and_silence_means_success_witness :
  let b := synthetic 100 100 by_quality in
  let st := uploaded 10 20 in
  error (app (snd (run 20 b st))) = None /\
  List.length (events (snd (run 20 b st))) = 4%nat /\
  exists w',
    (run 20 b st = (Normal tt, w') \/ run 20 b st = (Returned, w')) /\
    loading (app w') = false /\
    (error (app w') = None ->
     exists d kb,
       processedImage (app w') = Some d /\
       processedSize (app w') = Some kb /\
       calculateImageSize d = Some kb /\
       minSize st <= kb <= maxSize st).
Proof.
  cbv zeta. split; [vm_compute; reflexivity|].
  split; [vm_compute; reflexivity|].
  apply (loaded_call_ends_and_silence_means_success
           20 (synthetic 100 100 by_quality) (uploaded 10 20) photo photo_url
           100 100);
    first [reflexivity | cbn; lia].
Defined.

(** ** Giving up on the enlargement *)

Lemma enlarge_scale_below (k : nat) :
  (k < 10)%nat -> F64.ltb (enlarge_scale k) F64.c_3_0 = true.
Proof.
  intros H.
  do 10 (destruct k as [|k]; [vm_compute; reflexivity|]). lia.
Qed.

Lemma enlarge_gives_up (b : Browser) (lo : Z) (m : nat) :
  forall (k fuel : nat) (v v' : Vars) (w w' : World),
    (k + m = 10)%nat ->
    enlarge b lo fuel (enlarge_scale k) v w = (Normal v', w') ->
    currentSize v' < lo ->
    events w' =
      (events w ++
       map (fun j => Encode (enlarged_canvas (width v) (height v) j)
                       F64.c_1_0)
           (seq (S k) m))%list /\
    app w' = app w /\
    (m = 0%nat -> v' = v) /\
    (m <> 0%nat ->
     dataUrl v' =
     toDataURL b (enlarged_canvas (width v) (height v) 10) F64.c_1_0).
Proof.
  induction m as [|m IH]; intros k fuel v v' w w' Hk E Hlow.
  - replace k with 10%nat in E by lia.
    destruct fuel; cbn [enlarge] in E;
      rewrite enlarge_scale_stops, andb_false_r in E;
      injection E as <- <-; cbn; rewrite app_nil_r; repeat split; auto;
      congruence.
  - assert (Hsf : F64.ltb (enlarge_scale k) F64.c_3_0 = true)
      by (apply enlarge_scale_below; lia).
    destruct fuel as [|fuel]; cbn [enlarge] in E; rewrite Hsf, andb_true_r in E;
      destruct (Z.ltb_spec (currentSize v) lo) as [Hv|Hv];
      try discriminate E;
      try (injection E as <- <-; lia).
    rewrite encode_then_measure in E. cbv zeta in E.
    destruct (calculateImageSize _) as [kb|] eqn:Ekb; [|discriminate E].
    destruct (Z.geb_spec kb lo) as [Hkb|Hkb].
    + injection E as <- <-. cbn [currentSize set_result] in Hlow. lia.
    + apply (IH (S k)) in E; [|lia|assumption].
      cbn [width height set_result set_canvas app events] in E.
      destruct E as (Ee & Ea & E0 & En).
      split; [|split; [exact Ea|split; [discriminate|]]].
      * rewrite Ee, <- app_assoc. reflexivity.
      * intros _. destruct m as [|m].
        -- assert (k = 9%nat) as -> by lia.
           rewrite (E0 eq_refl). reflexivity.
        -- apply En. discriminate.
Qed.

Lemma search_gives_up (b : Browser) (lo hi iw ih : Z) (fuel : nat)
    (w w' : World) :
  lo < hi ->
  search b lo hi iw ih fuel w = (Returned, w') ->
  events w' =
    (events w ++ Encode (canvas0 iw ih) F64.c_1_0 ::
     map (fun j => Encode (enlarged_canvas iw ih j) F64.c_1_0)
         (seq 1 10))%list /\
  exists kb,
    kb < lo /\
    app w' =
    gave_up lo (toDataURL b (enlarged_canvas iw ih 10) F64.c_1_0) kb (app w).
Proof.
  intros Hlh E. unfold search, bind in E. rewrite baseline_run in E.
  destruct (has_context b); [|discriminate E]. cbv zeta in E.
  destruct (calculateImageSize _) as [kb0|] eqn:E0; [|discriminate E].
  set (w1 := {| app := app w;
                events := events w ++ [Encode (canvas0 iw ih) F64.c_1_0] |})
    in E.
  unfold stage1 in E.
  destruct (Z.ltb_spec kb0 lo) as [Hlow|Hok].
  - unfold bind in E.
    pose proof (enlarge_spec b lo 10 0 fuel (vars0 iw ih) w1 eq_refl) as H.
    change (enlarge_scale 0) with F64.c_1_0 in H.
    destruct (enlarge b lo fuel F64.c_1_0 (vars0 iw ih) w1)
      as [[v' | | msg | |] w2] eqn:Een; try discriminate E.
    + destruct (Z.ltb_spec (currentSize v') lo) as [Hv|Hv].
      * change F64.c_1_0 with (enlarge_scale 0) in Een at 1.
        apply enlarge_gives_up with (m := 10%nat) in Een;
          [|reflexivity|exact Hv].
        destruct Een as (Ee & Ea & _ & Ed).
        unfold setState, return_ in E. cbn [fst snd app events] in E.
        injection E as <-. cbn [events app].
        rewrite Ee, Ea, (Ed ltac:(discriminate)).
        cbn [events app w1 width height vars0]. rewrite <- app_assoc.
        split; [reflexivity|]. exists (currentSize v'). split; [exact Hv|].
        reflexivity.
      * unfold ret in E. unfold stage2 in E.
        destruct (Z.gtb_spec kb0 hi); [lia|].
        unfold ret in E. rewrite report_run in E. discriminate E.
    + destruct H as (? & _ & _ & _ & _ & []).
  - unfold ret in E.
    pose proof (stage2_spec b lo hi iw ih fuel
                  (toDataURL b (canvas0 iw ih) F64.c_1_0) kb0 (vars0 iw ih)
                  w1 eq_refl) as H.
    destruct (stage2 b lo hi iw ih fuel _ kb0 (vars0 iw ih) w1)
      as [[v2 | | msg | |] w2]; try rewrite report_run in E;
      try discriminate E.
    destruct H as (? & _ & _ & _ & _ & []).
Qed.

(** X20: a call returns from the branch of lines 123-131 only after ten
    enlargements, at the scales 1.2, 1.4, ... up to 3.0000000000000004 of
    the loaded dimensions, and what it stores is the last and largest of
    them, with a size below the minimum. *)
Theorem giving_up_stores_the_largest_enlargement
    (fuel : nat) (b : Browser) (st : AppState) (f : File) (src : string)
    (iw ih : Z) :
  image st = Some f ->
  preview st = Some src ->
  truthy (preview st) = true ->
  minSize st < maxSize st ->
  load_image b src = Some (iw, ih) ->
  fst (run fuel b st) = Returned ->
  let st' := app (snd (run fuel b st)) in
  events (snd (run fuel b st)) =
    Decode src :: Encode (canvas0 iw ih) F64.c_1_0 ::
    map (fun j => Encode (enlarged_canvas iw ih j) F64.c_1_0) (seq 1 10) /\
  processedImage st' =
    Some (toDataURL b (enlarged_canvas iw ih 10) F64.c_1_0) /\
  exists kb,
    processedSize st' = Some kb /\ kb < minSize st /\
    error st' = Some (below_message (minSize st) kb).
Proof.
  intros Hi Hp Ht Hr Hl. cbv zeta.
  rewrite (run_accepted fuel b st f src iw ih Hi Hp Ht Hr Hl).
  set (w0 := {| app := setError None (setLoading true st);
                events := [Decode src] |}).
  destruct (search b (minSize st) (maxSize st) iw ih fuel w0)
    as [[u | | msg | |] w'] eqn:E; try discriminate.
  intros _.
  destruct (search_gives_up b _ _ iw ih fuel w0 w' Hr E)
    as (Ee & kb & Hkb & Ea).
  cbn [fst snd finished app events]. rewrite Ee, Ea.
  repeat split. exists kb. repeat split. exact Hkb.
Qed.

Lemma giving_up_stores_the_largest_enlargement_witness :
  let b := synthetic 10 10 by_area in
  let st := uploaded 50 60 in
  let st' := app (snd (run 20 b st)) in
  events (snd (run 20 b st)) =
    Decode photo_url :: Encode (canvas0 10 10) F64.c_1_0 ::
    map (fun j => Encode (enlarged_canvas 10 10 j) F64.c_1_0) (seq 1 10) /\
  processedImage st' =
    Some (toDataURL b (enlarged_canvas 10 10 10) F64.c_1_0) /\
  exists kb,
    processedSize st' = Some kb /\ kb < minSize st /\
    error st' = Some (below_message (minSize st) kb).
Proof.
  cbv zeta.
  apply (giving_up_stores_the_largest_enlargement
           20 (synthetic 10 10 by_area) (uploaded 50 60) photo photo_url
           10 10);
    first [reflexivity | vm_compute; reflexivity | cbn; lia].
Defined.
